(** * public_ip_poster: a shallow embedding of [public_ip_poster.py]

    The script resolves the host's public IPv4 address from a list of
    echo services, caches the answer in a JSON file with a timestamp, and
    uploads the cache file to the destinations of a configuration file.

    Conventions of the embedding.
    - A Python [str] is a Rocq [string]; its characters are read as the
      code points U+0000..U+00FF, on which [isspace], [isdigit] and the
      decimal digits of [int] are given by the Unicode tables Python uses.
    - Python numbers that come from JSON or from [time.time()] are
      rationals ([Q]); arithmetic and comparisons on them are exact.
      [int()] is the unbounded positional value of its digits; the
      interpreter's optional limit on the length of a decimal literal
      ([sys.set_int_max_str_digits]) is taken as switched off.
    - A function that can raise returns an [outcome]; code that reads the
      file system, the network or the log runs in the monad [M] over a
      [world], and what it asks of the outside is answered by an [env]. *)

From Stdlib Require Import QArith Ascii String ZArith Lia.
From stdpp Require Import gmap strings list.

Open Scope string_scope.

(** ** Outcomes of a call *)

Inductive exn : Type :=
| KeyError (key : string)
| TypeError
| ValueError
| OverflowError
| JSONDecodeError
| IOError
| RequestException
| SSHException.

(** A call returns a value, raises, or ends the process ([os._exit]). *)
Inductive outcome (A : Type) : Type :=
| Returned (a : A)
| Raised (e : exn)
| Exited (code : Z).
Arguments Returned {A} a.
Arguments Raised {A} e.
Arguments Exited {A} code.

Definition obind {A B} (o : outcome A) (k : A -> outcome B) : outcome B :=
  match o with
  | Returned a => k a
  | Raised e => Raised e
  | Exited c => Exited c
  end.

(** ** Python built-ins on [str] *)

Module Py.

Definition ord (c : ascii) : N := N_of_ascii c.

(** [str.isspace] of one character: TAB..CR, FS..US, SPACE, NEL, NBSP. *)
Definition char_isspace (c : ascii) : bool :=
  let n := ord c in
  ((9 <=? n) && (n <=? 13) || (28 <=? n) && (n <=? 32)
   || (n =? 133) || (n =? 160))%N.

(** The decimal digits [0]..[9], the only characters [int] reads. *)
Definition char_isdecimal (c : ascii) : bool :=
  let n := ord c in ((48 <=? n) && (n <=? 57))%N.

(** [str.isdigit] of one character: the decimal digits and the
    superscript digits U+00B2, U+00B3, U+00B9. *)
Definition char_isdigit (c : ascii) : bool :=
  let n := ord c in
  (char_isdecimal c || (n =? 178) || (n =? 179) || (n =? 185))%N.

Fixpoint forallb_str (p : ascii -> bool) (s : string) : bool :=
  match s with
  | EmptyString => true
  | String c r => p c && forallb_str p r
  end.

(** [s.isdigit()]: at least one character, all of them digits. *)
Definition isdigit (s : string) : bool :=
  match s with
  | EmptyString => false
  | _ => forallb_str char_isdigit s
  end.

Definition digit_value (c : ascii) : Z := Z.of_N (ord c) - 48.

Fixpoint int_acc (acc : Z) (s : string) : Z :=
  match s with
  | EmptyString => acc
  | String c r => int_acc (10 * acc + digit_value c) r
  end.

(** [int(s)] for a string on which [isdigit] holds: the value of the
    decimal digits, [ValueError] when a character is not decimal. *)
Definition int (s : string) : outcome Z :=
  match s with
  | EmptyString => Raised ValueError
  | _ => if forallb_str char_isdecimal s then Returned (int_acc 0 s)
         else Raised ValueError
  end.

(** [s.split(sep)] for a one-character separator. *)
Fixpoint split (sep : ascii) (s : string) : list string :=
  match s with
  | EmptyString => [EmptyString]
  | String c r =>
      if Ascii.eqb c sep then EmptyString :: split sep r
      else match split sep r with
           | [] => [String c EmptyString]
           | p :: ps => String c p :: ps
           end
  end.

Fixpoint lstrip (s : string) : string :=
  match s with
  | EmptyString => EmptyString
  | String c r => if char_isspace c then lstrip r else s
  end.

Fixpoint rstrip (s : string) : string :=
  match s with
  | EmptyString => EmptyString
  | String c r =>
      match rstrip r with
      | EmptyString => if char_isspace c then EmptyString
                       else String c EmptyString
      | r' => String c r'
      end
  end.

(** [s.strip()]: leading and trailing white space removed. *)
Definition strip (s : string) : string := rstrip (lstrip s).

(** [all(f(x) for x in l)]: stops at the first false, a raise escapes. *)
Fixpoint all {A} (f : A -> outcome bool) (l : list A) : outcome bool :=
  match l with
  | [] => Returned true
  | x :: r => obind (f x) (fun b => if b then all f r else Returned false)
  end.

(** [os.path.basename]: what follows the last slash. *)
Fixpoint basename (p : string) : string :=
  match p with
  | EmptyString => EmptyString
  | String c r =>
      if forallb_str (fun d => negb (Ascii.eqb d "/")) r
      then (if Ascii.eqb c "/" then r else p)
      else basename r
  end.

End Py.

(** ** [validate_ip] (lines 37-43) *)

(** The generator body [part.isdigit() and 0 <= int(part) <= 255]. *)
Definition part_valid (part : string) : outcome bool :=
  if Py.isdigit part
  then obind (Py.int part) (fun n => Returned ((0 <=? n)%Z && (n <=? 255)%Z))
  else Returned false.

Definition validate_ip (ip_address : string) : outcome bool :=
  let parts := Py.split "." ip_address in
  if negb (length parts =? 4)%nat then Returned false
  else obind (Py.all part_valid parts)
         (fun ok => if negb ok then Returned false else Returned true).

(** The superscript two, U+00B2: a digit for [isdigit], not for [int]. *)
Definition SUPERSCRIPT_TWO : ascii := "178"%char.

(** ** Python values read from JSON *)

(** [JNull] is also Python's [None]; a JSON object is a [dict] with
    string keys. *)
#[warnings="-register-all"]
Inductive json : Type :=
| JNull
| JBool (b : bool)
| JNum (q : Q)
| JStr (s : string)
| JArr (l : list json)
| JObj (m : gmap string json).

Definition Qltb (x y : Q) : bool := negb (Qle_bool y x).

Fixpoint chars (s : string) : list string :=
  match s with
  | EmptyString => []
  | String c r => String c EmptyString :: chars r
  end.

(** The truth value of [if v:]. *)
Definition truthy (v : json) : bool :=
  match v with
  | JNull => false
  | JBool b => b
  | JNum q => negb (Qeq_bool q 0)
  | JStr s => negb (String.eqb s "")
  | JArr l => negb (Nat.eqb (length l) 0)
  | JObj m => negb (Nat.eqb (size m) 0)
  end.

(** [v[key]] for a string key. *)
Definition getitem (v : json) (key : string) : outcome json :=
  match v with
  | JObj m => match m !! key with
              | Some x => Returned x
              | None => Raised (KeyError key)
              end
  | _ => Raised TypeError
  end.

(** [len(v)]. *)
Definition len (v : json) : outcome Z :=
  match v with
  | JStr s => Returned (Z.of_nat (String.length s))
  | JArr l => Returned (Z.of_nat (length l))
  | JObj m => Returned (Z.of_nat (size m))
  | _ => Raised TypeError
  end.

(** The items of [for x in v]. *)
Definition iter (v : json) : outcome (list json) :=
  match v with
  | JStr s => Returned (JStr <$> chars s)
  | JArr l => Returned l
  | JObj m => Returned ((fun kv => JStr kv.1) <$> map_to_list m)
  | _ => Raised TypeError
  end.

(** The number behind [f"{v:.2f}"], [localtime(v)] and [x - v]:
    [bool] is an [int]; a [str] has no format code [f]. *)
Definition as_number (v : json) : outcome Q :=
  match v with
  | JNum q => Returned q
  | JBool b => Returned (if b then 1%Q else 0%Q)
  | JStr _ => Raised ValueError
  | _ => Raised TypeError
  end.

(** [v == s] for a string [s]. *)
Definition eq_str (v : json) (s : string) : bool :=
  match v with
  | JStr x => String.eqb x s
  | _ => false
  end.

(** [a + b] where [a] is a [str]. *)
Definition str_radd (a : string) (b : json) : outcome string :=
  match b with
  | JStr s => Returned (a ++ s)
  | _ => Raised TypeError
  end.

(** [a + b] where [b] is a [str]. *)
Definition str_add (a : json) (b : string) : outcome string :=
  match a with
  | JStr s => Returned (s ++ b)
  | _ => Raised TypeError
  end.

(** ** The world and the outside *)

Inductive level : Type := DEBUG | INFO | WARNING | ERROR.

(** What a run does, in order. [Log] keeps the level, the text of the
    call as the source has it, and the values it renders. *)
Inductive event : Type :=
| Log (lvl : level) (text : string) (args : list json)
| EvBasicConfig (log_file : string) (lvl : level)
| EvExists (path : string)
| EvMakedirs (path : string)
| EvOpen (path : string) (mode : string)
| EvGetmtime (path : string)
| EvGet (url : string)
| EvConnect (host port username key_filename : json)
| EvPut (local remote : string)
| EvClose.

Record file : Type := { f_text : string; f_mtime : Q }.

Record world : Type := {
  w_files : gmap string file;
  w_dirs : gset string;
  w_ticks : nat;
  w_trace : list event
}.

Record response : Type := { status_code : Z; text : string }.

(** The answers of the collaborators: the JSON codec, the successive
    readings of the clock, the modification time the file system gives to
    a write made after so many readings, the range of [localtime], the
    HTTP client, the file system's refusal to open for writing, and the
    secure-shell transport. *)
Record env : Type := {
  json_load : string -> option json;
  json_dump : json -> string;
  time_time : nat -> Q;
  mtime_stamp : nat -> Q;
  localtime_ok : Q -> bool;
  requests_get : string -> option response;
  open_w_ok : string -> bool;
  ssh_connect : json -> json -> json -> json -> option exn;
  scp_put : string -> string -> option exn
}.

Definition exn_name (e : exn) : string :=
  match e with
  | KeyError k => "KeyError: " ++ k
  | TypeError => "TypeError"
  | ValueError => "ValueError"
  | OverflowError => "OverflowError"
  | JSONDecodeError => "JSONDecodeError"
  | IOError => "IOError"
  | RequestException => "RequestException"
  | SSHException => "SSHException"
  end.

(** ** The monad of effectful code *)

Definition M (A : Type) : Type := world -> outcome A * world.

Definition ret {A} (a : A) : M A := fun w => (Returned a, w).

Definition bind {A B} (m : M A) (k : A -> M B) : M B :=
  fun w =>
    match m w with
    | (Returned a, w') => k a w'
    | (Raised e, w') => (Raised e, w')
    | (Exited c, w') => (Exited c, w')
    end.

Notation "x <- c1 ;; c2" := (bind c1 (fun x => c2))
  (at level 100, c1 at next level, right associativity).
Notation "c1 ;; c2" := (bind c1 (fun _ => c2))
  (at level 100, right associativity).

Definition lift {A} (o : outcome A) : M A := fun w => (o, w).
Definition raise {A} (e : exn) : M A := lift (Raised e).
Definition os_exit {A} (code : Z) : M A := lift (Exited code).

Definition emit (ev : event) : M unit :=
  fun w => (Returned tt,
            {| w_files := w_files w; w_dirs := w_dirs w;
               w_ticks := w_ticks w; w_trace := w_trace w ++ [ev] |}).

Definition log (lvl : level) (text : string) (args : list json) : M unit :=
  emit (Log lvl text args).

(** [try: m  except <catches> as e: h e]. *)
Definition try_except {A} (m : M A) (catches : exn -> bool)
    (h : exn -> M A) : M A :=
  fun w =>
    match m w with
    | (Raised e, w') => if catches e then h e w' else (Raised e, w')
    | r => r
    end.

(** [try: m  finally: f]. *)
Definition try_finally {A} (m : M A) (f : M unit) : M A :=
  fun w =>
    match m w with
    | (Exited c, w') => (Exited c, w')
    | (o, w') => match f w' with
                 | (Returned _, w'') => (o, w'')
                 | (Raised e, w'') => (Raised e, w'')
                 | (Exited c, w'') => (Exited c, w'')
                 end
    end.

Fixpoint for_each {A} (body : A -> M unit) (l : list A) : M unit :=
  match l with
  | [] => ret tt
  | x :: r => body x ;; for_each body r
  end.

Definition is_IOError (e : exn) : bool :=
  match e with IOError => true | _ => false end.
Definition is_RequestException (e : exn) : bool :=
  match e with RequestException => true | _ => false end.
Definition is_Exception (e : exn) : bool := true.

(** ** File system *)

(** [os.path.exists]. *)
Definition os_path_exists (path : string) : M bool :=
  emit (EvExists path) ;;
  fun w => (Returned (bool_decide (is_Some (w_files w !! path))
                      || bool_decide (path ∈ w_dirs w)), w).

Definition os_makedirs (path : string) : M unit :=
  emit (EvMakedirs path) ;;
  fun w => (Returned tt,
            {| w_files := w_files w; w_dirs := {[path]} ∪ w_dirs w;
               w_ticks := w_ticks w; w_trace := w_trace w |}).

(** [os.path.getmtime]. *)
Definition os_path_getmtime (path : string) : M Q :=
  emit (EvGetmtime path) ;;
  fun w => match w_files w !! path with
           | Some f => (Returned (f_mtime f), w)
           | None => (Raised IOError, w)
           end.

(** [with open(path, "r") as c: ... c.read()]. *)
Definition read_file (path : string) : M string :=
  emit (EvOpen path "r") ;;
  fun w => match w_files w !! path with
           | Some f => (Returned (f_text f), w)
           | None => (Raised IOError, w)
           end.

Section Program.

Variable E : env.

(** [time.time()]: the next reading of the clock. *)
Definition time_now : M Q :=
  fun w => (Returned (time_time E (w_ticks w)),
            {| w_files := w_files w; w_dirs := w_dirs w;
               w_ticks := S (w_ticks w); w_trace := w_trace w |}).

(** [with open(path, "w") as c: c.write(data)]; the file system stamps
    the file. *)
Definition write_file (path data : string) : M unit :=
  emit (EvOpen path "w") ;;
  fun w =>
    if open_w_ok E path
    then (Returned tt,
          {| w_files := <[path := {| f_text := data;
                                     f_mtime := mtime_stamp E (w_ticks w) |}]>
                          (w_files w);
             w_dirs := w_dirs w; w_ticks := w_ticks w;
             w_trace := w_trace w |})
    else (Raised IOError, w).

(** [json.load(c)] on the text read. *)
Definition load_json (data : string) : M json :=
  match json_load E data with
  | Some j => ret j
  | None => raise JSONDecodeError
  end.

(** [localtime(t)]: refuses what the platform's [time_t] cannot hold
    (with [OverflowError] or [OSError], by the platform; the model has
    one name for both). *)
Definition localtime (t : Q) : M unit :=
  if localtime_ok E t then ret tt else raise OverflowError.

(** ** [read_config_file] (lines 26-34) *)

Definition read_config_file (config_file : string) : M json :=
  try_except
    (data <- read_file config_file ;;
     config_dict <- load_json data ;;
     ret config_dict)
    is_IOError
    (fun e =>
       log ERROR "Failed to read from cache file: {e}" [JStr (exn_name e)] ;;
       ret JNull).

(** ** [get_public_ip] (lines 46-64) *)

Definition PUBLIC_IP_SERVICE_URL_LIST : list string :=
  ["https://ipinfo.io/ip"; "https://checkip.amazonaws.com"].

(** [requests.get(url, timeout=5)]. *)
Definition get (url : string) : M response :=
  emit (EvGet url) ;;
  match requests_get E url with
  | Some r => ret r
  | None => raise RequestException
  end.

(** [response.raise_for_status()]: an [HTTPError], which is a
    [RequestException], for the statuses 400..599. *)
Definition raise_for_status (r : response) : M unit :=
  if ((400 <=? status_code r) && (status_code r <? 600))%Z
  then raise RequestException else ret tt.

(** One turn of the loop over the services (lines 51-62). *)
Definition query_service (public_ip_list : gmap string string)
    (service_url : string) : M (gmap string string) :=
  try_except
    (log INFO "Attempting to retrieve public IP from {service_url}"
       [JStr service_url] ;;
     response <- get service_url ;;
     raise_for_status response ;;
     let ip_address := Py.strip (text response) in
     if negb (String.eqb ip_address "") then
       valid <- lift (validate_ip ip_address) ;;
       if valid then
         log INFO "Retrieved public IP: {ip_address} from {service_url}"
           [JStr ip_address; JStr service_url] ;;
         ret (<[service_url := ip_address]> public_ip_list)
       else ret public_ip_list
     else ret public_ip_list)
    is_RequestException
    (fun _ =>
       log WARNING "Could not retrieve IP from {service_url}"
         [JStr service_url] ;;
       ret public_ip_list).

Fixpoint query_services (public_ip_list : gmap string string)
    (urls : list string) : M (gmap string string) :=
  match urls with
  | [] => ret public_ip_list
  | service_url :: rest =>
      public_ip_list' <- query_service public_ip_list service_url ;;
      query_services public_ip_list' rest
  end.

Definition get_public_ip : M (gmap string string) :=
  query_services ∅ PUBLIC_IP_SERVICE_URL_LIST.

(** ** [setup_logging], [setup_cache_dir] (lines 67-85) *)

Definition setup_logging (log_file : string) (verbose : bool) : M unit :=
  emit (EvBasicConfig log_file (if verbose then DEBUG else INFO)).

Definition setup_cache_dir (cache_dir : string) : M unit :=
  present <- os_path_exists cache_dir ;;
  if negb present then
    os_makedirs cache_dir ;;
    log INFO "Created cache directory at {cache_dir}" [JStr cache_dir]
  else
    log INFO "Using existing cache directory at {cache_dir}" [JStr cache_dir].

(** ** [save_ip_list_to_cache] (lines 88-100) *)

(** The dictionary literal of lines 92-95. *)
Definition cache_record (timestamp : Q) (ip_list : gmap string string)
    : json :=
  JObj (<["timestamp" := JNum timestamp]>
        (<["services" := JObj (JStr <$> ip_list)]> ∅)).

Definition save_ip_list_to_cache (cache_file : string)
    (ip_list : gmap string string) : M unit :=
  try_except
    (timestamp <- time_now ;;
     let cache_json := cache_record timestamp ip_list in
     write_file cache_file (json_dump E cache_json) ;;
     log INFO "Saved public IP list to cache file at {cache_file}"
       [JStr cache_file])
    is_IOError
    (fun e =>
       log ERROR "Failed to write to cache file: {e}" [JStr (exn_name e)]).

(** ** [check_cache_staleness] (lines 103-141) *)

(** Lines 113-120: the value the age is measured from. *)
Definition cache_timestamp_of (cache_file : string) (json_cache : json)
    : M json :=
  stored <- lift (getitem json_cache "timestamp") ;;
  if truthy stored then
    cache_timestamp <- lift (getitem json_cache "timestamp") ;;
    log INFO "Cache has timestamp {cache_timestamp}" [cache_timestamp] ;;
    ret cache_timestamp
  else
    log INFO "Did not find timestamp field in cache" [] ;;
    mtime <- os_path_getmtime cache_file ;;
    ret (JNum mtime).

(** One of the debug lines 123-124: the text is built before the call,
    so the value must format as a float and be a time [localtime] takes. *)
Definition debug_time (text : string) (v : json) : M Q :=
  t <- lift (as_number v) ;;
  localtime t ;;
  log DEBUG text [v] ;;
  ret t.

Definition check_cache_staleness (cache_file : string) (ttl : Z) : M json :=
  present <- os_path_exists cache_file ;;
  if present then
    data <- read_file cache_file ;;
    json_cache <- load_json data ;;
    cache_timestamp <- cache_timestamp_of cache_file json_cache ;;
    current_time <- time_now ;;
    debug_time "current_time: {current_time:.2f} - {strftime(localtime(current_time))}"
      (JNum current_time) ;;
    t <- debug_time "cache_timestamp: {cache_timestamp:.2f} - {strftime(localtime(cache_timestamp))}"
      cache_timestamp ;;
    let cache_age := (current_time - t)%Q in
    if Qltb cache_age (inject_Z ttl) then
      log INFO "Cache file is valid, age {cache_age:.2f}" [JNum cache_age] ;;
      try_except
        (data' <- read_file cache_file ;;
         cached_ips <- load_json data' ;;
         ret cached_ips)
        is_IOError
        (fun e =>
           log ERROR "Failed to read from cache file: {e}"
             [JStr (exn_name e)] ;;
           ret JNull)
    else
      log INFO "Cache file is stale, older than {ttl} seconds"
        [JNum (inject_Z ttl)] ;;
      ret JNull
  else
    log INFO "No cache file found at {cache_file}" [JStr cache_file] ;;
    ret JNull.

(** ** [run_destination_op_scp] (lines 153-180) *)

Definition connect (host port username key_filename : json) : M unit :=
  emit (EvConnect host port username key_filename) ;;
  match ssh_connect E host port username key_filename with
  | Some e => raise e
  | None => ret tt
  end.

Definition put (cache_file remote_file : string) : M unit :=
  emit (EvPut cache_file remote_file) ;;
  match scp_put E cache_file remote_file with
  | Some e => raise e
  | None => ret tt
  end.

Definition run_destination_op_scp (op : json) (cache_file : string)
    : M unit :=
  name <- lift (getitem op "name") ;;
  log INFO "Executing operation %s" [name] ;;
  try_finally
    (try_except
       (host <- lift (getitem op "host") ;;
        port <- lift (getitem op "port") ;;
        username <- lift (getitem op "username") ;;
        identity_file <- lift (getitem op "identity_file") ;;
        connect host port username identity_file ;;
        remote_dir <- lift (getitem op "remote_dir") ;;
        remote_file <- lift (str_add remote_dir
                               ("/" ++ Py.basename cache_file)) ;;
        put cache_file remote_file ;;
        host' <- lift (getitem op "host") ;;
        log INFO "Uploaded %s to remote %s:%s"
          [JStr cache_file; host'; JStr remote_file])
       is_Exception
       (fun e =>
          log ERROR "Failed to upload to remote" [] ;;
          log ERROR "{e}" [JStr (exn_name e)]))
    (emit EvClose).

(** ** [run_destination_op] (lines 144-150) *)

Definition run_destination_op (op : json) (cache_file : string) : M unit :=
  ty <- lift (getitem op "type") ;;
  if eq_str ty "scp" then run_destination_op_scp op cache_file
  else
    ty' <- lift (getitem op "type") ;;
    msg <- lift (str_radd "Don't have option for " ty') ;;
    log WARNING msg [] ;;
    log DEBUG "{op}" [op].

(** ** [main] (lines 185-277), from the parsed arguments on *)

Record args : Type := {
  config : string;
  log_file : string;
  verbose : bool;
  cache_dir : string;
  cache_ttl : Z;
  cache_file : string;
  ignore_cache : bool
}.

(** Lines 255-264: resolve afresh and overwrite the cache. *)
Definition resolve_and_save (a : args) : M unit :=
  public_ip_list <- get_public_ip ;;
  log INFO "Retrieved {len(public_ip_list)} public IP addresses"
    [JNum (inject_Z (Z.of_nat (size public_ip_list)))] ;;
  log DEBUG "Public IP addresses: {public_ip_list}"
    [JObj (JStr <$> public_ip_list)] ;;
  if Nat.eqb (size public_ip_list) 0 then
    log ERROR "Could not retrieve public IP address from any service, exiting"
      [] ;;
    os_exit (-1)
  else
    log DEBUG "Attempting to save to cache file {args.cache_file}"
      [JStr (cache_file a)] ;;
    save_ip_list_to_cache (cache_file a) public_ip_list.

(** Lines 270-274: the destinations of the configuration, in order. *)
Definition dispatch (config_dict : json) (a : args) : M unit :=
  dest_list <- lift (getitem config_dict "destination_list") ;;
  n <- lift (obind (getitem config_dict "destination_list") len) ;;
  log INFO "Got %d destinations" [JNum (inject_Z n)] ;;
  dests <- lift (iter dest_list) ;;
  for_each (fun dest => run_destination_op dest (cache_file a)) dests.

(** Lines 232-248: logging, configuration, cache directory, and the
    cache check, which runs whatever the flags are. *)
Definition load_config_and_cache (a : args) : M (json * json) :=
  setup_logging (log_file a) (verbose a) ;;
  log INFO "public_ip_poster starting" [] ;;
  log DEBUG "{args}" [] ;;
  log INFO "Using configuration file: {args.config}" [JStr (config a)] ;;
  config_dict <- read_config_file (config a) ;;
  log DEBUG "{config_dict}" [config_dict] ;;
  (if negb (truthy config_dict) then
     log ERROR "Could not read config file from {args.config}"
       [JStr (config a)] ;;
     os_exit (-1)
   else ret tt) ;;
  setup_cache_dir (cache_dir a) ;;
  public_ip_list <- check_cache_staleness (cache_file a) (cache_ttl a) ;;
  ret (config_dict, public_ip_list).

(** Lines 249-264: the cached record is used only when it is truthy
    and [--ignore-cache] is not given. *)
Definition cached_or_fresh (a : args) (public_ip_list : json) : M unit :=
  if truthy public_ip_list && negb (ignore_cache a) then
    log INFO "Using cached public IP addresses" [] ;;
    n <- lift (len public_ip_list) ;;
    log DEBUG "Got {len(public_ip_list)}" [JNum (inject_Z n)] ;;
    log DEBUG "{public_ip_list}" [public_ip_list]
  else resolve_and_save a.

Definition main (a : args) : M unit :=
  loaded <- load_config_and_cache a ;;
  cached_or_fresh a loaded.2 ;;
  dispatch loaded.1 a ;;
  log INFO "public_ip_poster finished" [].

End Program.

(** ** The dotted quad of the specification *)

(** The characters [0]..[9]. *)
Definition decimal_char (c : ascii) : Prop := (48 <= Py.ord c <= 57)%N.

(** The base-10 value of a digit string, most significant digit first. *)
Fixpoint base10_value (s : string) : Z :=
  match s with
  | EmptyString => 0
  | String c r =>
      ((Z.of_N (Py.ord c) - 48) * 10 ^ Z.of_nat (String.length r)
       + base10_value r)%Z
  end.

(** A segment: not empty, all decimal digits, value in [0,255]. *)
Definition segment (p : string) : Prop :=
  p <> "" /\
  (forall c, In c (list_ascii_of_string p) -> decimal_char c) /\
  (0 <= base10_value p <= 255)%Z.

(** Exactly four segments separated by dots. *)
Definition dotted_quad (s : string) : Prop :=
  exists a b c d,
    s = a ++ "." ++ b ++ "." ++ c ++ "." ++ d /\
    segment a /\ segment b /\ segment c /\ segment d.


Fixpoint join_dot (l : list string) : string :=
  match l with
  | [] => EmptyString
  | [p] => p
  | p :: r => p ++ "." ++ join_dot r
  end.

Definition no_dot (s : string) : Prop :=
  Py.forallb_str (fun c => negb (Ascii.eqb c ".")) s = true.



(** ** Frames and traces *)

Definition empty_world : world :=
  {| w_files := ∅; w_dirs := ∅; w_ticks := 0; w_trace := [] |}.

(** The world with more events on its trace. *)
Definition log_to (w : world) (evs : list event) : world :=
  {| w_files := w_files w; w_dirs := w_dirs w; w_ticks := w_ticks w;
     w_trace := w_trace w ++ evs |}.

(** A computation that does nothing but add to the trace, the same
    events in every world. *)
Definition trace_only {A} (m : M A) : Prop :=
  forall w, m w = ((m empty_world).1, log_to w (w_trace (m empty_world).2)).

(** What dispatching one destination alone leaves on the trace. *)
Definition dest_trace (E : env) (cache_file : string) (d : json)
    : list event :=
  w_trace (run_destination_op E d cache_file empty_world).2.

(** A destination as the configuration describes it: an object with a
    string [type]; a [name] when the type is ["scp"]. *)
Definition dest_ok (d : json) : Prop :=
  exists m ty, d = JObj m /\ m !! "type" = Some (JStr ty) /\
               (ty = "scp" -> is_Some (m !! "name")).

(** The type tag of a destination, when it is a string. *)
Definition dest_type (d : json) : option string :=
  match getitem d "type" with
  | Returned (JStr ty) => Some ty
  | _ => None
  end.

Definition all_space (s : string) : Prop :=
  Py.forallb_str Py.char_isspace s = true.

Definition no_space (s : string) : Prop :=
  Py.forallb_str (fun c => negb (Py.char_isspace c)) s = true.

(** A status on which [raise_for_status] returns. *)
Definition status_ok (r : response) : Prop :=
  (status_code r < 400 \/ 600 <= status_code r)%Z.

(** The answer of a service that makes it into the mapping. *)
Definition answer (E : env) (url ip : string) : Prop :=
  exists r, requests_get E url = Some r /\ status_ok r /\
            ip = Py.strip (text r) /\ ip <> "" /\
            validate_ip ip = Returned true.

(** ** Sample data *)

Definition NEWLINE : ascii := "010"%char.

Definition sample_ips : gmap string string :=
  {[ "https://ipinfo.io/ip" := "10.0.0.1" ]}.

Definition sample_record : json := cache_record 1000 sample_ips.

(** A cache record without the [timestamp] field. *)
Definition sample_record_no_timestamp : json :=
  JObj {[ "services" := JObj (JStr <$> sample_ips) ]}.

(** An unknown transport, a host that is down, a host that is up. *)
Definition sample_dests : list json :=
  [ JObj {[ "type" := JStr "ftp" ]};
    JObj {[ "type" := JStr "scp"; "name" := JStr "down";
            "host" := JStr "down.example"; "port" := JNum 22;
            "username" := JStr "ip"; "identity_file" := JStr "id_rsa";
            "remote_dir" := JStr "/srv" ]};
    JObj {[ "type" := JStr "scp"; "name" := JStr "backup";
            "host" := JStr "backup.example"; "port" := JNum 22;
            "username" := JStr "ip"; "identity_file" := JStr "id_rsa";
            "remote_dir" := JStr "/srv" ]} ].

Definition sample_config_dict : gmap string json :=
  {[ "destination_list" := JArr sample_dests ]}.

Definition sample_config : json := JObj sample_config_dict.

(** The clock reads 1000, 1100, ...; the first service answers with a
    trailing newline, the second is unreachable. *)
Definition sample_env : env :=
  {| json_load := fun data =>
       if String.eqb data "cache" then Some sample_record
       else if String.eqb data "config" then Some sample_config
       else if String.eqb data "old" then Some sample_record_no_timestamp
       else None;
     json_dump := fun _ => "cache";
     time_time := fun n => inject_Z (1000 + 100 * Z.of_nat n);
     mtime_stamp := fun n => inject_Z (950 + 100 * Z.of_nat n);
     localtime_ok := fun _ => true;
     requests_get := fun url =>
       if String.eqb url "https://ipinfo.io/ip"
       then Some {| status_code := 200;
                    text := String " " ("10.0.0.1" ++ String NEWLINE "") |}
       else None;
     open_w_ok := fun _ => true;
     ssh_connect := fun host _ _ _ =>
       if eq_str host "backup.example" then None else Some SSHException;
     scp_put := fun _ _ => None |}.

(** The first service answers with a superscript two. *)
Definition sample_env_superscript : env :=
  {| json_load := json_load sample_env;
     json_dump := json_dump sample_env;
     time_time := time_time sample_env;
     mtime_stamp := mtime_stamp sample_env;
     localtime_ok := localtime_ok sample_env;
     requests_get := fun url =>
       if String.eqb url "https://ipinfo.io/ip"
       then Some {| status_code := 200;
                    text := String SUPERSCRIPT_TWO ".1.1.1" |}
       else Some {| status_code := 200; text := "10.0.0.1" |};
     open_w_ok := open_w_ok sample_env;
     ssh_connect := ssh_connect sample_env;
     scp_put := scp_put sample_env |}.

Definition sample_files (cache_text : string) : gmap string file :=
  {[ "config.json" := {| f_text := "config"; f_mtime := 500 |};
     "cache.json" := {| f_text := cache_text; f_mtime := 900 |} ]}.

(** A world with a configuration and a cache file, the clock read once. *)
Definition sample_world (cache_text : string) : world :=
  {| w_files := sample_files cache_text; w_dirs := {[ "cache" ]};
     w_ticks := 1; w_trace := [] |}.

Definition sample_args (ignore : bool) : args :=
  {| config := "config.json"; log_file := "poster.log"; verbose := false;
     cache_dir := "cache"; cache_ttl := 3600; cache_file := "cache.json";
     ignore_cache := ignore |}.

(** ** What a computation may touch *)

(** The URLs of the HTTP requests on a trace, in order. *)
Fixpoint gets (t : list event) : list string :=
  match t with
  | [] => []
  | EvGet url :: r => url :: gets r
  | _ :: r => gets r
  end.

(** Events that reach neither the network nor a file opened for
    writing nor the directory tree. *)
Definition quiet (ev : event) : Prop :=
  match ev with
  | EvGet _ => False
  | EvOpen _ mode => mode <> "w"
  | EvMakedirs _ => False
  | _ => True
  end.

(** Events that reach neither the network nor a file opened for
    writing. *)
Definition offline (ev : event) : Prop :=
  match ev with
  | EvGet _ => False
  | EvOpen _ mode => mode <> "w"
  | _ => True
  end.

(** Events of the log and of the HTTP client. *)
Definition resolving (ev : event) : Prop :=
  match ev with
  | Log _ _ _ | EvGet _ => True
  | _ => False
  end.

(** Events of the log and of the secure-shell transport. *)
Definition transport_event (ev : event) : Prop :=
  match ev with
  | Log _ _ _ | EvConnect _ _ _ _ | EvPut _ _ | EvClose => True
  | _ => False
  end.

(** The only file a run opens for writing is [path]. *)
Definition writes_only (path : string) (ev : event) : Prop :=
  match ev with
  | EvOpen p mode => mode = "w" -> p = path
  | _ => True
  end.

(** From [w] to [w']: files outside [W] are as they were, directories
    are only added, the clock is only read, and the trace grows by
    events in [P]. *)
Definition evolves (W : string -> Prop) (P : event -> Prop)
    (w w' : world) : Prop :=
  (forall p, ~ W p -> w_files w' !! p = w_files w !! p) /\
  w_dirs w ⊆ w_dirs w' /\
  (w_ticks w <= w_ticks w')%nat /\
  exists t, w_trace w' = (w_trace w ++ t)%list /\ Forall P t.

(** Every run of [m] is a step of [R]. *)
Definition steps {A} (R : world -> world -> Prop) (m : M A) : Prop :=
  forall w, R w (m w).2.

Definition no_file (_ : string) : Prop := False.

Definition no_slash (s : string) : Prop :=
  Py.forallb_str (fun d => negb (Ascii.eqb d "/")) s = true.

(** An ["scp"] destination with all its fields. *)
Definition scp_destination (m : gmap string json)
    (name host port username identity_file : json) (remote_dir : string)
    : Prop :=
  m !! "name" = Some name /\ m !! "host" = Some host /\
  m !! "port" = Some port /\ m !! "username" = Some username /\
  m !! "identity_file" = Some identity_file /\
  m !! "remote_dir" = Some (JStr remote_dir).



(** ** More sample data *)

(** A record whose timestamp is a text. *)
Definition sample_record_text_timestamp : json :=
  JObj {[ "timestamp" := JStr "yesterday";
          "services" := JObj (JStr <$> sample_ips) ]}.

(** As [sample_env], with more file contents and a file system that
    refuses to write. *)
Definition sample_env_readonly : env :=
  {| json_load := fun data =>
       if String.eqb data "text" then Some sample_record_text_timestamp
       else if String.eqb data "empty" then Some (JObj ∅)
       else json_load sample_env data;
     json_dump := json_dump sample_env;
     time_time := time_time sample_env;
     mtime_stamp := mtime_stamp sample_env;
     localtime_ok := localtime_ok sample_env;
     requests_get := fun _ => None;
     open_w_ok := fun _ => false;
     ssh_connect := ssh_connect sample_env;
     scp_put := scp_put sample_env |}.



(** The first service answers 404 with a valid address in the body; or
    200 with a blank body. *)
Definition sample_env_not_found : env :=
  {| json_load := json_load sample_env;
     json_dump := json_dump sample_env;
     time_time := time_time sample_env;
     mtime_stamp := mtime_stamp sample_env;
     localtime_ok := localtime_ok sample_env;
     requests_get := fun _ => Some {| status_code := 404;
                                      text := "10.0.0.1" |};
     open_w_ok := open_w_ok sample_env;
     ssh_connect := ssh_connect sample_env;
     scp_put := scp_put sample_env |}.

Definition sample_env_blank : env :=
  {| json_load := json_load sample_env;
     json_dump := json_dump sample_env;
     time_time := time_time sample_env;
     mtime_stamp := mtime_stamp sample_env;
     localtime_ok := localtime_ok sample_env;
     requests_get := fun _ => Some {| status_code := 200;
                                      text := String NEWLINE " " |};
     open_w_ok := open_w_ok sample_env;
     ssh_connect := ssh_connect sample_env;
     scp_put := scp_put sample_env |}.

(** The third of [sample_dests], and the default cache path. *)
Definition sample_scp : gmap string json :=
  {[ "type" := JStr "scp"; "name" := JStr "backup";
     "host" := JStr "backup.example"; "port" := JNum 22;
     "username" := JStr "ip"; "identity_file" := JStr "id_rsa";
     "remote_dir" := JStr "/srv" ]}.

Definition DEFAULT_CACHE_FILE : string :=
  ".public_ip_poster_cache/public_ip_cache.json".

(** A transport that connects and then fails to copy. *)
Definition sample_env_put_fails : env :=
  {| json_load := json_load sample_env;
     json_dump := json_dump sample_env;
     time_time := time_time sample_env;
     mtime_stamp := mtime_stamp sample_env;
     localtime_ok := localtime_ok sample_env;
     requests_get := requests_get sample_env;
     open_w_ok := open_w_ok sample_env;
     ssh_connect := fun _ _ _ _ => None;
     scp_put := fun _ _ => Some SSHException |}.

(** The second of [sample_dests]. *)
Definition sample_scp_down : gmap string json :=
  {[ "type" := JStr "scp"; "name" := JStr "down";
     "host" := JStr "down.example"; "port" := JNum 22;
     "username" := JStr "ip"; "identity_file" := JStr "id_rsa";
     "remote_dir" := JStr "/srv" ]}.

(** A world with a configuration and no cache. *)
Definition sample_world_no_cache : world :=
  {| w_files := {[ "config.json" :=
                     {| f_text := "config"; f_mtime := 500 |} ]};
     w_dirs := ∅; w_ticks := 0; w_trace := [] |}.

(** ** Tactics for running the monad *)

Ltac unfold_ops :=
  unfold os_path_exists, os_makedirs, read_file, write_file, load_json,
    os_path_getmtime, time_now, localtime, get, raise_for_status, connect,
    put, log, emit, bind, lift, raise, os_exit, ret, try_except,
    try_finally in *.

Ltac crunch :=
  repeat (cbn;
          match goal with
          | H : ?x = _ |- context [?x] => rewrite H
          end); cbn.

(** * Properties *)

(** ** Strings *)

Lemma append_cons c a b : String c a ++ b = String c (a ++ b).
Proof. reflexivity. Qed.

Lemma append_nil b : "" ++ b = b.
Proof. reflexivity. Qed.

Lemma dot_append b : "." ++ b = String "." b.
Proof. reflexivity. Qed.

Lemma split_nonempty sep s : Py.split sep s <> [].
Proof.
  destruct s as [|c r]; simpl; [discriminate|].
  destruct (Ascii.eqb c sep); [discriminate|].
  destruct (Py.split sep r); discriminate.
Qed.

Lemma split_no_dot a : no_dot a -> Py.split "." a = [a].
Proof.
  unfold no_dot. induction a as [|c r IH]; intros H; [reflexivity|].
  cbn [Py.forallb_str] in H. apply andb_prop in H as [Hc Hr].
  cbn [Py.split]. apply negb_true_iff in Hc. rewrite Hc.
  rewrite (IH Hr). reflexivity.
Qed.

Lemma split_app_dot a r :
  no_dot a -> Py.split "." (a ++ String "." r) = a :: Py.split "." r.
Proof.
  unfold no_dot. induction a as [|c a IH]; intros H.
  - reflexivity.
  - cbn [Py.forallb_str] in H. apply andb_prop in H as [Hc Ha].
    rewrite append_cons. cbn [Py.split]. apply negb_true_iff in Hc.
    rewrite Hc, (IH Ha). reflexivity.
Qed.

Lemma join_dot_cons p q l :
  join_dot (p :: q :: l) = p ++ "." ++ join_dot (q :: l).
Proof. reflexivity. Qed.

Lemma join_split s : join_dot (Py.split "." s) = s.
Proof.
  induction s as [|c r IH]; [reflexivity|].
  cbn [Py.split]. pose proof (split_nonempty "." r) as Hn.
  destruct (Py.split "." r) as [|p ps] eqn:Hs; [congruence|].
  destruct (Ascii.eqb_spec c ".") as [->|Hne].
  - rewrite join_dot_cons, IH. reflexivity.
  - destruct ps as [|q qs].
    + cbn [join_dot] in *. now subst.
    + rewrite join_dot_cons in *. now rewrite append_cons, IH.
Qed.

Lemma forallb_str_In p s :
  Py.forallb_str p s = true <->
  (forall c, In c (list_ascii_of_string s) -> p c = true).
Proof.
  induction s as [|c r IH]; cbn [Py.forallb_str list_ascii_of_string].
  - split; [intros _ c []|reflexivity].
  - rewrite andb_true_iff, IH. split.
    + intros [Hc Hr] d [<-|Hd]; auto.
    + intros H. split; [apply H; now left|intros d Hd; apply H; now right].
Qed.

Lemma char_isdecimal_iff c : Py.char_isdecimal c = true <-> decimal_char c.
Proof.
  unfold Py.char_isdecimal, decimal_char.
  rewrite andb_true_iff, !N.leb_le. reflexivity.
Qed.

Lemma decimal_not_dot c :
  Py.char_isdecimal c = true -> negb (Ascii.eqb c ".") = true.
Proof.
  intros H. apply negb_true_iff. destruct (Ascii.eqb_spec c "."); [|reflexivity].
  subst c. discriminate H.
Qed.

Lemma decimal_isdigit c : Py.char_isdecimal c = true -> Py.char_isdigit c = true.
Proof. unfold Py.char_isdigit. intros ->. reflexivity. Qed.

Lemma forallb_str_impl (p q : ascii -> bool) s :
  (forall c, p c = true -> q c = true) ->
  Py.forallb_str p s = true -> Py.forallb_str q s = true.
Proof.
  intros Hpq. induction s as [|c r IH]; cbn [Py.forallb_str]; [auto|].
  rewrite !andb_true_iff. intros [Hc Hr]; auto.
Qed.

Lemma int_acc_value s acc :
  Py.int_acc acc s
  = (acc * 10 ^ Z.of_nat (String.length s) + base10_value s)%Z.
Proof.
  revert acc. induction s as [|c r IH]; intros acc.
  - cbn. lia.
  - cbn [Py.int_acc base10_value String.length]. rewrite IH.
    unfold Py.digit_value. rewrite Nat2Z.inj_succ, Z.pow_succ_r by lia. lia.
Qed.

(** A part passes the generator exactly when it is a segment. *)
Lemma part_valid_true_iff p : part_valid p = Returned true <-> segment p.
Proof.
  unfold part_valid, segment, Py.isdigit, Py.int.
  destruct p as [|c r]; [split; [discriminate|intros [H _]; congruence]|].
  assert (Hne : String c r <> "") by discriminate.
  cbv beta iota. remember (String c r) as s eqn:Hs. clear Hs.
  destruct (Py.forallb_str Py.char_isdecimal s) eqn:Hdec.
  - rewrite (forallb_str_impl _ _ s decimal_isdigit Hdec).
    cbn [obind]. rewrite int_acc_value.
    split.
    + intros H. injection H as H. apply andb_prop in H as [H1 H2].
      apply Z.leb_le in H1, H2. split; [assumption|]. split; [|lia].
      intros d Hd. apply char_isdecimal_iff.
      now apply (proj1 (forallb_str_In _ s) Hdec).
    + intros (_ & _ & H1 & H2). f_equal. apply andb_true_intro.
      split; apply Z.leb_le; lia.
  - split.
    + destruct (Py.forallb_str Py.char_isdigit s); discriminate.
    + intros (_ & Hall & _). exfalso.
      assert (Py.forallb_str Py.char_isdecimal s = true); [|congruence].
      apply forallb_str_In. intros d Hd. now apply char_isdecimal_iff, Hall.
Qed.

Lemma segment_no_dot p : segment p -> no_dot p.
Proof.
  intros (_ & Hall & _). unfold no_dot. apply forallb_str_In.
  intros c Hc. apply decimal_not_dot, char_isdecimal_iff, Hall, Hc.
Qed.

Lemma all_part_valid_true l :
  Py.all part_valid l = Returned true <-> Forall segment l.
Proof.
  induction l as [|p r IH]; cbn [Py.all].
  - split; [constructor|reflexivity].
  - split.
    + intros H. destruct (part_valid p) as [[|]| |] eqn:Hp; cbn in H;
        try discriminate.
      constructor; [now apply part_valid_true_iff|now apply IH].
    + intros H. inversion H as [|? ? Hp Hr]; subst.
      apply part_valid_true_iff in Hp. rewrite Hp. cbn. now apply IH.
Qed.

(** The validator answers [True] exactly on dotted quads. *)
Lemma validate_ip_true_iff s : validate_ip s = Returned true <-> dotted_quad s.
Proof.
  unfold validate_ip, dotted_quad. split.
  - intros H.
    destruct (length (Py.split "." s) =? 4)%nat eqn:Hlen; cbn in H;
      [|discriminate].
    apply Nat.eqb_eq in Hlen.
    destruct (Py.all part_valid (Py.split "." s)) as [[|]| |] eqn:Hall;
      cbn in H; try discriminate.
    apply all_part_valid_true in Hall.
    pose proof (join_split s) as Hj.
    destruct (Py.split "." s) as [|a [|b [|c [|d [|? ?]]]]]; try discriminate.
    rewrite !Forall_cons in Hall. destruct Hall as (Ha & Hb & Hc & Hd & _).
    exists a, b, c, d. cbn [join_dot] in Hj. auto.
  - intros (a & b & c & d & -> & Ha & Hb & Hc & Hd).
    rewrite !dot_append.
    rewrite !split_app_dot, split_no_dot by now apply segment_no_dot.
    cbn [length Nat.eqb negb].
    assert (Hall : Forall segment [a; b; c; d]) by (repeat apply Forall_cons_2; auto).
    apply all_part_valid_true in Hall. rewrite Hall. reflexivity.
Qed.


(** ** The validator *)






(** The validator never ends the process and raises nothing but the
    [ValueError] of [int]. *)
Lemma part_valid_outcomes p :
  (exists b, part_valid p = Returned b) \/ part_valid p = Raised ValueError.
Proof.
  unfold part_valid, Py.int. destruct (Py.isdigit p); [|eauto].
  destruct p; [now right|].
  destruct (Py.forallb_str _ _); cbn; eauto.
Qed.

Lemma validate_ip_outcomes s :
  (exists b, validate_ip s = Returned b) \/ validate_ip s = Raised ValueError.
Proof.
  unfold validate_ip. destruct (negb _); [eauto|].
  induction (Py.split "." s) as [|p r IH]; cbn [Py.all obind]; [eauto|].
  destruct (part_valid_outcomes p) as [[b ->]| ->]; cbn [obind]; [|now right].
  destruct b; [exact IH|eauto].
Qed.

(** C7. The claim fails on the code: on a segment that starts with the
    superscript two, [isdigit] holds and [int] raises, so [validate_ip]
    raises [ValueError] instead of returning a boolean. *)
Theorem validate_ip_raises_on_superscript :
  validate_ip (String SUPERSCRIPT_TWO ".1.1.1") = Raised ValueError.
Proof. reflexivity. Qed.

(** ** The cache *)


Lemma Qltb_ge x y : Qltb x y = false <-> (y <= x)%Q.
Proof.
  unfold Qltb. rewrite negb_false_iff, Qle_bool_iff. reflexivity.
Qed.

(** What the cache check answers once the timestamp is a time. *)
Lemma check_cache_staleness_answer (E : env) (path : string) (ttl : Z)
    (w : world) (f : file) (j ts : json) (t : Q) :
  w_files w !! path = Some f ->
  json_load E (f_text f) = Some j ->
  getitem j "timestamp" = Returned ts ->
  as_number (if truthy ts then ts else JNum (f_mtime f)) = Returned t ->
  localtime_ok E (time_time E (w_ticks w)) = true ->
  localtime_ok E t = true ->
  (check_cache_staleness E path ttl w).1
  = Returned (if Qltb (time_time E (w_ticks w) - t) (inject_Z ttl)
              then j else JNull).
Proof.
  intros Hf Hj Hts Ht Hnow Hlt.
  unfold check_cache_staleness, cache_timestamp_of, debug_time. unfold_ops.
  destruct (truthy ts) eqn:Htr.
  - destruct (Qltb (time_time E (w_ticks w) - t) (inject_Z ttl)) eqn:Hq;
      crunch; reflexivity.
  - cbn in Ht. injection Ht as Ht. subst t.
    destruct (Qltb (time_time E (w_ticks w) - f_mtime f) (inject_Z ttl))
      eqn:Hq; crunch; reflexivity.
Qed.



(** C2. The claim fails on the code: when the parsed record has no
    [timestamp] field, the subscript of line 114 raises [KeyError] and
    the modification time is never consulted. *)
Theorem check_cache_staleness_missing_timestamp (E : env) (path : string)
    (ttl : Z) (w : world) (f : file) (m : gmap string json) :
  w_files w !! path = Some f ->
  json_load E (f_text f) = Some (JObj m) ->
  m !! "timestamp" = None ->
  (check_cache_staleness E path ttl w).1 = Raised (KeyError "timestamp").
Proof.
  intros Hf Hj Hm.
  unfold check_cache_staleness, cache_timestamp_of, debug_time. unfold_ops.
  crunch. reflexivity.
Qed.

Lemma check_cache_staleness_missing_timestamp_witness :
  (check_cache_staleness sample_env "cache.json" 3600
     (sample_world "old")).1 = Raised (KeyError "timestamp").
Proof.
  apply (check_cache_staleness_missing_timestamp sample_env "cache.json"
           3600 (sample_world "old")
           {| f_text := "old"; f_mtime := 900 |}
           {[ "services" := JObj (JStr <$> sample_ips) ]});
    reflexivity.
Defined.

(** A falsy [timestamp] that is present does fall back on the
    modification time. *)
Lemma cache_timestamp_of_falsy (E : env) (path : string) (w : world)
    (f : file) (j ts : json) :
  w_files w !! path = Some f ->
  getitem j "timestamp" = Returned ts ->
  truthy ts = false ->
  (cache_timestamp_of path j w).1 = Returned (JNum (f_mtime f)).
Proof.
  intros Hf Hts Htr. unfold cache_timestamp_of. unfold_ops.
  crunch. reflexivity.
Qed.

Lemma save_ip_list_to_cache_world (E : env) (path : string)
    (ip_list : gmap string string) (w : world) :
  open_w_ok E path = true ->
  let w1 := (save_ip_list_to_cache E path ip_list w).2 in
  w_files w1
  = <[path := {| f_text := json_dump E
                             (cache_record (time_time E (w_ticks w)) ip_list);
                 f_mtime := mtime_stamp E (S (w_ticks w)) |}]> (w_files w)
  /\ w_ticks w1 = S (w_ticks w).
Proof.
  intros Hw. unfold save_ip_list_to_cache. unfold_ops. crunch. auto.
Qed.



(** ** Computations that only add to the trace *)

Lemma log_to_log_to w t1 t2 : log_to (log_to w t1) t2 = log_to w (t1 ++ t2).
Proof. unfold log_to. cbn. now rewrite app_assoc. Qed.

Lemma trace_only_intro {A} (m : M A) (o : outcome A) (t : list event) :
  (forall w, m w = (o, log_to w t)) -> trace_only m.
Proof.
  intros H w. rewrite (H empty_world), (H w). reflexivity.
Qed.

Lemma trace_only_ret {A} (a : A) : trace_only (ret a).
Proof.
  apply (trace_only_intro _ (Returned a) []). intros w. unfold ret, log_to.
  rewrite app_nil_r. now destruct w.
Qed.

Lemma trace_only_lift {A} (o : outcome A) : trace_only (lift o).
Proof.
  apply (trace_only_intro _ o []). intros w. unfold lift, log_to.
  rewrite app_nil_r. now destruct w.
Qed.

Lemma trace_only_emit ev : trace_only (emit ev).
Proof. now apply (trace_only_intro _ (Returned tt) [ev]). Qed.

Lemma trace_only_bind {A B} (m : M A) (k : A -> M B) :
  trace_only m -> (forall a, trace_only (k a)) -> trace_only (bind m k).
Proof.
  intros Hm Hk w. unfold bind. rewrite (Hm w), (Hm empty_world).
  destruct (m empty_world).1 as [a| |]; cbn.
  - rewrite (Hk a (log_to w _)), (Hk a (log_to empty_world _)). cbn.
    now rewrite log_to_log_to.
  - reflexivity.
  - reflexivity.
Qed.

Lemma trace_only_try_except {A} (m : M A) c (h : exn -> M A) :
  trace_only m -> (forall e, trace_only (h e)) -> trace_only (try_except m c h).
Proof.
  intros Hm Hh w. unfold try_except. rewrite (Hm w), (Hm empty_world).
  destruct (m empty_world).1 as [a|e|]; cbn; try reflexivity.
  destruct (c e); [|reflexivity].
  rewrite (Hh e (log_to w _)), (Hh e (log_to empty_world _)). cbn.
  now rewrite log_to_log_to.
Qed.

Lemma trace_only_try_finally {A} (m : M A) (f : M unit) :
  trace_only m -> trace_only f -> trace_only (try_finally m f).
Proof.
  intros Hm Hf w. unfold try_finally. rewrite (Hm w), (Hm empty_world).
  destruct (m empty_world).1 as [a|e|]; cbn; try reflexivity.
  all: rewrite (Hf (log_to w _)), (Hf (log_to empty_world _)); cbn.
  all: destruct (f empty_world).1; cbn; now rewrite log_to_log_to.
Qed.

Ltac trace_only_step :=
  first
    [ apply trace_only_ret
    | apply trace_only_lift
    | apply trace_only_emit
    | apply trace_only_bind; [|intros ?]
    | apply trace_only_try_except; [|intros ?]
    | apply trace_only_try_finally
    | match goal with
      | |- trace_only (if ?b then _ else _) => destruct b
      | |- trace_only (match ?x with _ => _ end) => destruct x
      end ].

Ltac trace_only_tac :=
  unfold log, raise, os_exit; repeat trace_only_step.

Lemma trace_only_run_destination_op E op cache_file :
  trace_only (run_destination_op E op cache_file).
Proof.
  unfold run_destination_op, run_destination_op_scp, connect, put.
  trace_only_tac.
Qed.

Lemma trace_only_for_each {A} (body : A -> M unit) l :
  (forall x, trace_only (body x)) -> trace_only (for_each body l).
Proof.
  intros Hb. induction l as [|x l IH]; cbn [for_each]; trace_only_tac; auto.
Qed.

Lemma trace_only_query_service E acc url : trace_only (query_service E acc url).
Proof.
  unfold query_service, get, raise_for_status. trace_only_tac.
Qed.



Ltac destruct_matches :=
  repeat (cbn;
          match goal with
          | H : ?x = _ |- context [?x] => rewrite H
          | |- context [match ?m !! ?k with _ => _ end] =>
              destruct (m !! k) eqn:?
          | |- context [ssh_connect ?E ?a ?b ?c ?d] =>
              destruct (ssh_connect E a b c d) eqn:?
          | |- context [scp_put ?E ?a ?b] => destruct (scp_put E a b) eqn:?
          | |- context [match ?x with JNull => _ | _ => _ end] =>
              is_var x; destruct x
          end); cbn.

Lemma run_destination_op_scp_alone E m cache_file name :
  m !! "name" = Some name ->
  let r := run_destination_op_scp E (JObj m) cache_file empty_world in
  r.1 = Returned tt /\
  head (w_trace r.2) = Some (Log INFO "Executing operation %s" [name]) /\
  last (w_trace r.2) = Some EvClose.
Proof.
  intros Hname. unfold run_destination_op_scp, connect, put, getitem, str_add.
  unfold_ops. destruct_matches; auto.
Qed.

Lemma run_destination_op_alone E d cache_file :
  dest_ok d ->
  (run_destination_op E d cache_file empty_world).1 = Returned tt /\
  match dest_type d with
  | Some ty =>
      if String.eqb ty "scp"
      then exists name,
             getitem d "name" = Returned name /\
             head (dest_trace E cache_file d)
             = Some (Log INFO "Executing operation %s" [name]) /\
             last (dest_trace E cache_file d) = Some EvClose
      else dest_trace E cache_file d
           = [Log WARNING ("Don't have option for " ++ ty) [];
              Log DEBUG "{op}" [d]]
  | None => False
  end.
Proof.
  intros (m & ty & -> & Hty & Hname).
  unfold dest_trace, dest_type, run_destination_op, getitem. rewrite Hty.
  destruct (String.eqb ty "scp") eqn:Heq; unfold_ops; cbn; rewrite Heq.
  - apply String.eqb_eq in Heq. destruct (Hname Heq) as [name Hn].
    rewrite Hn.
    destruct (run_destination_op_scp_alone E m cache_file name Hn)
      as (H1 & H2 & H3). eauto.
  - auto.
Qed.

(** ** The dispatcher *)


Lemma sample_dests_ok : Forall dest_ok sample_dests.
Proof.
  repeat apply Forall_cons_2; [| | |apply Forall_nil_2].
  - exists {[ "type" := JStr "ftp" ]}, "ftp".
    split; [reflexivity|]. split; [reflexivity|discriminate].
  - eexists _, "scp". split; [reflexivity|].
    split; [reflexivity|]. intros _. now exists (JStr "down").
  - eexists _, "scp". split; [reflexivity|].
    split; [reflexivity|]. intros _. now exists (JStr "backup").
Qed.


(** ** The resolver *)

Lemma answer_functional E url ip ip' :
  answer E url ip -> answer E url ip' -> ip = ip'.
Proof.
  intros (r & Hr & _ & -> & _) (r' & Hr' & _ & -> & _). congruence.
Qed.

Lemma raise_for_status_ok r :
  ((400 <=? status_code r) && (status_code r <? 600))%Z = false <-> status_ok r.
Proof.
  unfold status_ok. rewrite andb_false_iff, Z.leb_gt, Z.ltb_ge. reflexivity.
Qed.

(** One turn of the loop, when the validator returns a verdict. *)
Lemma query_service_returns E acc url w :
  (forall r, requests_get E url = Some r ->
             exists b, validate_ip (Py.strip (text r)) = Returned b) ->
  exists m,
    (query_service E acc url w).1 = Returned m /\
    ((exists ip, answer E url ip /\ m = <[url := ip]> acc) \/
     ((forall ip, ~ answer E url ip) /\ m = acc)).
Proof.
  intros Hval. unfold query_service, get, raise_for_status, answer.
  unfold_ops. cbn.
  destruct (requests_get E url) as [r|] eqn:Hr; cbn.
  2: { exists acc. split; [reflexivity|]. right. split; [|reflexivity].
       intros ip (r & Hr' & _). discriminate. }
  destruct (Hval r eq_refl) as [b Hb].
  destruct ((400 <=? status_code r) && (status_code r <? 600))%Z eqn:Hs; cbn.
  { exists acc. split; [reflexivity|]. right. split; [|reflexivity].
    intros ip (r' & Hr' & Hok & _). injection Hr' as <-.
    apply raise_for_status_ok in Hok. congruence. }
  apply raise_for_status_ok in Hs.
  destruct (String.eqb_spec (Py.strip (text r)) "") as [He|He]; cbn.
  { exists acc. split; [reflexivity|]. right. split; [|reflexivity].
    intros ip (r' & Hr' & _ & -> & Hne & _). injection Hr' as <-.
    contradiction. }
  rewrite Hb. cbn. destruct b; cbn.
  - eexists. split; [reflexivity|]. left. exists (Py.strip (text r)).
    split; [|reflexivity]. exists r. auto.
  - exists acc. split; [reflexivity|]. right. split; [|reflexivity].
    intros ip (r' & Hr' & _ & -> & _ & Hv). injection Hr' as <-. congruence.
Qed.

Lemma query_services_returns E urls acc w :
  (forall u r, In u urls -> requests_get E u = Some r ->
               exists b, validate_ip (Py.strip (text r)) = Returned b) ->
  exists m,
    (query_services E acc urls w).1 = Returned m /\
    forall k v,
      m !! k = Some v <->
      (In k urls /\ answer E k v) \/
      (~ (In k urls /\ exists ip, answer E k ip) /\ acc !! k = Some v).
Proof.
  revert acc w. induction urls as [|u rest IH]; intros acc w Hval.
  - exists acc. split; [reflexivity|]. intros k v. cbn [In]. tauto.
  - cbn [query_services]. unfold bind.
    rewrite (trace_only_query_service E acc u w).
    destruct (query_service_returns E acc u empty_world) as (m1 & Hm1 & Hcase).
    { intros r. apply Hval. now left. }
    rewrite Hm1.
    destruct (IH m1 (log_to w (w_trace (query_service E acc u empty_world).2)))
      as (m & Hm & Hspec).
    { intros u' r Hu'. apply Hval. now right. }
    exists m. split; [exact Hm|]. intros k v. rewrite Hspec. clear Hspec Hm.
    destruct (String.string_dec u k) as [->|Hne].
    + destruct Hcase as [(ip & Hans & ->)|(Hnone & ->)].
      * rewrite lookup_insert_eq. split.
        -- intros [[Hin Ha]|[Hn Heq]].
           ++ left. split; [now right|exact Ha].
           ++ injection Heq as <-. left. split; [now left|exact Hans].
        -- intros [[Hin Ha]|[Hn Hacc]].
           ++ destruct (in_dec String.string_dec k rest) as [Hr|Hr].
              ** left. auto.
              ** right. split; [tauto|].
                 now rewrite (answer_functional _ _ _ _ Hans Ha).
           ++ exfalso. apply Hn. split; [now left|eauto].
      * split.
        -- intros [[Hin Ha]|[Hn Hacc]].
           ++ left. split; [now right|exact Ha].
           ++ right. split; [|exact Hacc]. intros [_ [ip Ha]].
              exact (Hnone ip Ha).
        -- intros [[Hin Ha]|[Hn Hacc]].
           ++ exfalso. exact (Hnone v Ha).
           ++ right. split; [|exact Hacc]. intros [_ [ip Ha]].
              exact (Hnone ip Ha).
    + assert (Hm1k : m1 !! k = acc !! k).
      { destruct Hcase as [(ip & _ & ->)|(_ & ->)]; [|reflexivity].
        now apply lookup_insert_ne. }
      rewrite Hm1k. cbn [In]. split.
      * intros [[Hin Ha]|[Hn Hacc]]; [left; auto|].
        right. split; [|exact Hacc]. intros [[Hu|Hin] Hex]; [congruence|].
        apply Hn. auto.
      * intros [[[Hu|Hin] Ha]|[Hn Hacc]]; [congruence|left; auto|].
        right. split; [|exact Hacc]. intros [Hin Hex]. apply Hn. auto.
Qed.

(** The resolver, when the validator returns a verdict on every body:
    the mapping has exactly the answers of the services. *)
Lemma get_public_ip_returns E w :
  (forall u r, In u PUBLIC_IP_SERVICE_URL_LIST -> requests_get E u = Some r ->
               exists b, validate_ip (Py.strip (text r)) = Returned b) ->
  exists m,
    (get_public_ip E w).1 = Returned m /\
    forall k v, m !! k = Some v <->
                In k PUBLIC_IP_SERVICE_URL_LIST /\ answer E k v.
Proof.
  intros Hval. unfold get_public_ip.
  destruct (query_services_returns E PUBLIC_IP_SERVICE_URL_LIST ∅ w Hval)
    as (m & Hm & Hspec).
  exists m. split; [exact Hm|]. intros k v. rewrite Hspec.
  rewrite lookup_empty. split; [|tauto].
  intros [H|[_ H]]; [exact H|discriminate].
Qed.

(** *** White space *)

Lemma forallb_str_app p a b :
  Py.forallb_str p (a ++ b) = Py.forallb_str p a && Py.forallb_str p b.
Proof.
  induction a as [|c a IH]; [reflexivity|].
  rewrite append_cons. cbn [Py.forallb_str]. now rewrite IH, andb_assoc.
Qed.

Lemma decimal_not_space c :
  Py.char_isdecimal c = true -> negb (Py.char_isspace c) = true.
Proof.
  unfold Py.char_isdecimal, Py.char_isspace. intros H.
  apply andb_prop in H as [H1 H2]. apply N.leb_le in H1, H2.
  apply negb_true_iff. rewrite !orb_false_iff, !andb_false_iff.
  rewrite !N.leb_gt, !N.eqb_neq. lia.
Qed.

Lemma segment_no_space p : segment p -> no_space p.
Proof.
  intros (_ & Hall & _). apply forallb_str_In. intros c Hc.
  apply decimal_not_space, char_isdecimal_iff, Hall, Hc.
Qed.

Lemma dotted_quad_no_space s : dotted_quad s -> s <> "" /\ no_space s.
Proof.
  intros (a & b & c & d & -> & Ha & Hb & Hc & Hd). split.
  - destruct Ha as (Hne & _). destruct a; [congruence|discriminate].
  - unfold no_space. rewrite !forallb_str_app.
    rewrite (segment_no_space a Ha), (segment_no_space b Hb),
      (segment_no_space c Hc), (segment_no_space d Hd). reflexivity.
Qed.

Lemma lstrip_app_space ws s : all_space ws -> Py.lstrip (ws ++ s) = Py.lstrip s.
Proof.
  unfold all_space. induction ws as [|c ws IH]; intros H; [reflexivity|].
  cbn [Py.forallb_str] in H. apply andb_prop in H as [Hc Hws].
  rewrite append_cons. cbn [Py.lstrip]. rewrite Hc. auto.
Qed.

Lemma lstrip_no_space s : no_space s -> Py.lstrip s = s.
Proof.
  unfold no_space. destruct s as [|c r]; [reflexivity|].
  cbn [Py.forallb_str Py.lstrip]. intros H. apply andb_prop in H as [Hc _].
  apply negb_true_iff in Hc. now rewrite Hc.
Qed.

Lemma rstrip_space ws : all_space ws -> Py.rstrip ws = "".
Proof.
  unfold all_space. induction ws as [|c ws IH]; intros H; [reflexivity|].
  cbn [Py.forallb_str] in H. apply andb_prop in H as [Hc Hws].
  cbn [Py.rstrip]. rewrite (IH Hws), Hc. reflexivity.
Qed.

Lemma rstrip_no_space s : no_space s -> Py.rstrip s = s.
Proof.
  unfold no_space. induction s as [|c r IH]; intros H; [reflexivity|].
  cbn [Py.forallb_str] in H. apply andb_prop in H as [Hc Hr].
  cbn [Py.rstrip]. rewrite (IH Hr). apply negb_true_iff in Hc. rewrite Hc.
  now destruct r.
Qed.

Lemma rstrip_app_space s ws :
  no_space s -> all_space ws -> Py.rstrip (s ++ ws) = s.
Proof.
  intros Hs Hws. unfold no_space in Hs.
  induction s as [|c r IH]; [now apply rstrip_space|].
  cbn [Py.forallb_str] in Hs. apply andb_prop in Hs as [Hc Hr].
  rewrite append_cons. cbn [Py.rstrip]. rewrite (IH Hr).
  apply negb_true_iff in Hc. rewrite Hc. now destruct r.
Qed.

Lemma strip_surrounded ws1 s ws2 :
  all_space ws1 -> all_space ws2 -> s <> "" -> no_space s ->
  Py.strip (ws1 ++ s ++ ws2) = s.
Proof.
  intros H1 H2 Hne Hs. unfold Py.strip. rewrite lstrip_app_space by exact H1.
  destruct s as [|c r]; [congruence|].
  assert (Hc : Py.char_isspace c = false).
  { unfold no_space in Hs. cbn [Py.forallb_str] in Hs.
    apply andb_prop in Hs as [Hc _]. now apply negb_true_iff in Hc. }
  rewrite append_cons. cbn [Py.lstrip]. rewrite Hc, <- append_cons.
  now apply rstrip_app_space.
Qed.

Lemma strip_no_space s : no_space s -> Py.strip s = s.
Proof.
  intros Hs. unfold Py.strip. rewrite lstrip_no_space by exact Hs.
  now apply rstrip_no_space.
Qed.

(** C10. A body that is a valid address between white space is stripped
    before it is validated: the turn of the loop stores the address
    itself, the mapping the resolver returns holds it under the
    service's URL, and no value of the mapping has white space around
    it. *)
Theorem get_public_ip_strips (E : env) (w : world) (url : string)
    (r : response) (ws1 ip ws2 : string) :
  In url PUBLIC_IP_SERVICE_URL_LIST ->
  requests_get E url = Some r ->
  status_ok r ->
  text r = ws1 ++ ip ++ ws2 ->
  all_space ws1 -> all_space ws2 ->
  validate_ip ip = Returned true ->
  (forall u r', In u PUBLIC_IP_SERVICE_URL_LIST ->
                requests_get E u = Some r' ->
                exists b, validate_ip (Py.strip (text r')) = Returned b) ->
  (forall acc w', (query_service E acc url w').1
                  = Returned (<[url := ip]> acc)) /\
  exists m,
    (get_public_ip E w).1 = Returned m /\
    m !! url = Some ip /\
    forall k v, m !! k = Some v -> Py.strip v = v.
Proof.
  intros Hin Hr Hok Htext Hws1 Hws2 Hvalid Hval.
  destruct (dotted_quad_no_space ip (proj1 (validate_ip_true_iff ip) Hvalid))
    as [Hne Hns].
  assert (Hstrip : Py.strip (text r) = ip).
  { rewrite Htext. now apply strip_surrounded. }
  assert (Hans : answer E url ip).
  { exists r. rewrite Hstrip. auto. }
  split.
  - intros acc w'.
    destruct (query_service_returns E acc url w') as (m & Hm & Hcase).
    { intros r' Hr'. apply (Hval url r' Hin Hr'). }
    rewrite Hm. f_equal.
    destruct Hcase as [(ip' & Hans' & ->)|(Hnone & _)].
    + now rewrite (answer_functional _ _ _ _ Hans Hans').
    + exfalso. exact (Hnone ip Hans).
  - destruct (get_public_ip_returns E w Hval) as (m & Hm & Hspec).
    exists m. split; [exact Hm|]. split.
    + apply Hspec. auto.
    + intros k v Hkv. apply Hspec in Hkv as (_ & r' & _ & _ & _ & _ & Hv).
      apply strip_no_space.
      exact (proj2 (dotted_quad_no_space v
                      (proj1 (validate_ip_true_iff v) Hv))).
Qed.

Lemma get_public_ip_strips_witness :
  exists m,
    (get_public_ip sample_env empty_world).1 = Returned m /\
    m !! "https://ipinfo.io/ip" = Some "10.0.0.1" /\
    forall k v, m !! k = Some v -> Py.strip v = v.
Proof.
  refine (proj2 (get_public_ip_strips sample_env empty_world
                   "https://ipinfo.io/ip"
                   {| status_code := 200;
                      text := String " " ("10.0.0.1" ++ String NEWLINE "") |}
                   " " "10.0.0.1" (String NEWLINE "")
                   _ eq_refl _ eq_refl eq_refl eq_refl eq_refl _)).
  - now left.
  - left. reflexivity.
  - intros u r' [<-|[<-|[]]] H; cbn in H; [|discriminate].
    injection H as <-. exists true. reflexivity.
Defined.

(** C4. The claim fails on the code: a body on which the validator
    raises is not skipped. The [ValueError] is not a [RequestException],
    so it leaves the loop and the resolver, and the second service is
    never queried. *)
Theorem get_public_ip_aborts_on_superscript :
  (get_public_ip sample_env_superscript empty_world).1 = Raised ValueError /\
  ~ In (EvGet "https://checkip.amazonaws.com")
       (w_trace (get_public_ip sample_env_superscript empty_world).2).
Proof.
  split; [reflexivity|]. cbn. intros [H|[H|[]]]; discriminate H.
Qed.

(** ** The orchestrator *)

Lemma trace_only_dispatch E cfg a : trace_only (dispatch E cfg a).
Proof.
  unfold dispatch. trace_only_tac.
  apply trace_only_for_each. intros d. apply trace_only_run_destination_op.
Qed.




Lemma save_ip_list_to_cache_trace (E : env) (path : string)
    (ip_list : gmap string string) (w : world) :
  exists t, w_trace (save_ip_list_to_cache E path ip_list w).2
            = (w_trace w ++ t)%list.
Proof.
  unfold save_ip_list_to_cache. unfold_ops. cbn.
  destruct (open_w_ok E path); cbn; rewrite <- !app_assoc; eauto.
Qed.




(** * Further properties *)

(** ** Steps of a relation on worlds *)

Section Steps.

Variables (R : world -> world -> Prop).
Hypothesis R_refl : forall w, R w w.
Hypothesis R_trans : forall w1 w2 w3, R w1 w2 -> R w2 w3 -> R w1 w3.

Lemma steps_ret {A} (a : A) : steps R (ret a).
Proof. intros w. apply R_refl. Qed.

Lemma steps_lift {A} (o : outcome A) : steps R (lift o).
Proof. intros w. apply R_refl. Qed.

Lemma steps_bind {A B} (m : M A) (k : A -> M B) :
  steps R m -> (forall a, steps R (k a)) -> steps R (bind m k).
Proof.
  intros Hm Hk w. unfold bind. specialize (Hm w).
  destruct (m w) as [[a| |] w1]; cbn in *; [|assumption..].
  eapply R_trans; [exact Hm|apply Hk].
Qed.

Lemma steps_try_except {A} (m : M A) c (h : exn -> M A) :
  steps R m -> (forall e, steps R (h e)) -> steps R (try_except m c h).
Proof.
  intros Hm Hh w. unfold try_except. specialize (Hm w).
  destruct (m w) as [[a|e|] w1]; cbn in *; try assumption.
  destruct (c e); [|assumption].
  eapply R_trans; [exact Hm|apply Hh].
Qed.

Lemma steps_try_finally {A} (m : M A) (f : M unit) :
  steps R m -> steps R f -> steps R (try_finally m f).
Proof.
  intros Hm Hf w. unfold try_finally. specialize (Hm w).
  destruct (m w) as [[a|e|] w1]; cbn in *; try assumption.
  all: specialize (Hf w1); destruct (f w1) as [[[]| |] w2]; cbn in *.
  all: eapply R_trans; [exact Hm|exact Hf].
Qed.

Lemma steps_for_each {A} (body : A -> M unit) l :
  (forall x, steps R (body x)) -> steps R (for_each body l).
Proof.
  intros Hb. induction l as [|x l IH]; cbn [for_each].
  - apply steps_ret.
  - apply steps_bind; auto.
Qed.

End Steps.

Lemma evolves_refl W P w : evolves W P w w.
Proof.
  unfold evolves. split; [reflexivity|]. split; [reflexivity|].
  split; [lia|].
  exists []. split; [now rewrite app_nil_r|constructor].
Qed.

Lemma evolves_trans W P w1 w2 w3 :
  evolves W P w1 w2 -> evolves W P w2 w3 -> evolves W P w1 w3.
Proof.
  intros (F1 & D1 & T1 & t1 & E1 & P1) (F2 & D2 & T2 & t2 & E2 & P2).
  split; [intros p Hp; now rewrite F2, F1|].
  split; [set_solver|]. split; [lia|].
  exists (t1 ++ t2)%list. split; [now rewrite E2, E1, app_assoc|].
  now apply Forall_app.
Qed.

Lemma evolves_emit W P ev :
  P ev -> steps (evolves W P) (emit ev).
Proof.
  intros Hev w. unfold evolves. cbn.
  split; [reflexivity|]. split; [reflexivity|]. split; [lia|].
  exists [ev]. split; [reflexivity|]. now repeat constructor.
Qed.

Lemma evolves_os_path_exists W P path :
  P (EvExists path) -> steps (evolves W P) (os_path_exists path).
Proof. intros Hev w. exact (evolves_emit W P _ Hev w). Qed.

Lemma evolves_read_file W P path :
  P (EvOpen path "r") -> steps (evolves W P) (read_file path).
Proof.
  intros Hev w. unfold read_file, bind. cbn.
  destruct (w_files w !! path); exact (evolves_emit W P _ Hev w).
Qed.

Lemma evolves_os_path_getmtime W P path :
  P (EvGetmtime path) -> steps (evolves W P) (os_path_getmtime path).
Proof.
  intros Hev w. unfold os_path_getmtime, bind. cbn.
  destruct (w_files w !! path); exact (evolves_emit W P _ Hev w).
Qed.

Lemma evolves_os_makedirs W P path :
  P (EvMakedirs path) -> steps (evolves W P) (os_makedirs path).
Proof.
  intros Hev w. unfold os_makedirs, emit, bind, evolves. cbn.
  split; [reflexivity|]. split; [set_solver|]. split; [lia|].
  exists [EvMakedirs path]. split; [reflexivity|]. now repeat constructor.
Qed.

Lemma evolves_time_now W P E : steps (evolves W P) (time_now E).
Proof.
  intros w. unfold evolves. cbn.
  split; [reflexivity|]. split; [reflexivity|]. split; [lia|].
  exists []. split; [now rewrite app_nil_r|constructor].
Qed.

Lemma evolves_write_file W P E path data :
  W path -> P (EvOpen path "w") ->
  steps (evolves W P) (write_file E path data).
Proof.
  intros HW Hev w. unfold write_file, emit, bind. cbn.
  destruct (open_w_ok E path); cbn.
  - unfold evolves. cbn. split.
    + intros p Hp. apply lookup_insert_ne. intros ->. contradiction.
    + split; [reflexivity|]. split; [lia|].
      exists [EvOpen path "w"]. split; [reflexivity|]. now repeat constructor.
  - exact (evolves_emit W P _ Hev w).
Qed.

Lemma evolves_weaken (W W' : string -> Prop) (P P' : event -> Prop) w w' :
  (forall p, W p -> W' p) -> (forall ev, P ev -> P' ev) ->
  evolves W P w w' -> evolves W' P' w w'.
Proof.
  intros HW HP (F & D & T & t & Et & Pt).
  split; [intros p Hp; apply F; auto|]. split; [exact D|]. split; [exact T|].
  exists t. split; [exact Et|]. eapply Forall_impl; [exact Pt|exact HP].
Qed.

Ltac steps_step W P :=
  first
    [ apply (steps_ret _ (evolves_refl W P))
    | apply (steps_lift _ (evolves_refl W P))
    | apply evolves_time_now
    | apply evolves_emit; cbn; try easy
    | apply evolves_os_path_exists; cbn; try easy
    | apply evolves_read_file; cbn; try easy
    | apply evolves_os_path_getmtime; cbn; try easy
    | apply evolves_os_makedirs; cbn; try easy
    | apply evolves_write_file; cbn; try easy
    | apply (steps_bind _ (evolves_trans W P)); [|intros ?]
    | apply (steps_try_except _ (evolves_trans W P)); [|intros ?]
    | apply (steps_try_finally _ (evolves_trans W P))
    | match goal with
      | |- steps _ (if ?b then _ else _) => destruct b
      | |- steps _ (match ?x with _ => _ end) => destruct x
      end ].

Ltac steps_tac W P :=
  unfold log, raise, os_exit, load_json, localtime;
  repeat steps_step W P.

Lemma evolves_files W P w w' :
  evolves W P w w' -> (forall p, ~ W p) -> w_files w' = w_files w.
Proof.
  intros (F & _) HW. apply map_eq. intros p. apply F, HW.
Qed.

(** ** The cache check reads only *)

Lemma steps_check_cache_staleness (E : env) (path : string) (ttl : Z) :
  steps (evolves no_file quiet) (check_cache_staleness E path ttl).
Proof.
  unfold check_cache_staleness, cache_timestamp_of, debug_time.
  steps_tac no_file quiet.
Qed.

(** X1. Whatever it returns or raises, the cache check only logs, tests
    and reads: it changes no file, makes no directory, sends no HTTP
    request and opens no file for writing. *)
Theorem check_cache_staleness_reads_only (E : env) (path : string)
    (ttl : Z) (w : world) :
  evolves no_file quiet w (check_cache_staleness E path ttl w).2 /\
  w_files (check_cache_staleness E path ttl w).2 = w_files w.
Proof.
  pose proof (steps_check_cache_staleness E path ttl w) as H.
  split; [exact H|]. apply (evolves_files _ _ _ _ H). intros p [].
Qed.

(** ** The validator on plain input *)






(** ** More on the cache *)

(** X3. With no file and no directory at the path, the check returns
    [None] after one existence test and one log line; nothing is opened. *)
Theorem check_cache_staleness_absent (E : env) (path : string) (ttl : Z)
    (w : world) :
  w_files w !! path = None ->
  path ∉ w_dirs w ->
  check_cache_staleness E path ttl w
  = (Returned JNull,
     log_to w [EvExists path;
               Log INFO "No cache file found at {cache_file}" [JStr path]]).
Proof.
  intros Hf Hd. unfold check_cache_staleness. unfold_ops. cbn.
  rewrite Hf. cbn. rewrite bool_decide_eq_false_2 by exact Hd. cbn.
  unfold log_to. now rewrite <- app_assoc.
Qed.

Lemma check_cache_staleness_absent_witness :
  (check_cache_staleness sample_env "cache.json" 3600 empty_world).1
  = Returned JNull.
Proof.
  rewrite (check_cache_staleness_absent sample_env "cache.json" 3600
             empty_world); [reflexivity|reflexivity|].
  intros H. exact (not_elem_of_empty (C := gset string) _ H).
Defined.

(** X4. A stored timestamp that is truthy and not a number (a string, a
    list, an object) makes the check raise when the debug line is built,
    whatever the time-to-live. *)
Theorem check_cache_staleness_bad_timestamp (E : env) (path : string)
    (ttl : Z) (w : world) (f : file) (j ts : json) (e : exn) :
  w_files w !! path = Some f ->
  json_load E (f_text f) = Some j ->
  getitem j "timestamp" = Returned ts ->
  truthy ts = true ->
  as_number ts = Raised e ->
  localtime_ok E (time_time E (w_ticks w)) = true ->
  (check_cache_staleness E path ttl w).1 = Raised e.
Proof.
  intros Hf Hj Hts Htr Hnum Hnow.
  unfold check_cache_staleness, cache_timestamp_of, debug_time. unfold_ops.
  crunch. reflexivity.
Qed.

Lemma check_cache_staleness_bad_timestamp_witness :
  (check_cache_staleness sample_env_readonly "cache.json" 3600
     (sample_world "text")).1 = Raised ValueError.
Proof.
  apply (check_cache_staleness_bad_timestamp sample_env_readonly
           "cache.json" 3600
           (sample_world "text") {| f_text := "text"; f_mtime := 900 |}
           sample_record_text_timestamp (JStr "yesterday"));
    reflexivity.
Defined.

(** The outcome of the check, case by case. *)
Lemma check_cache_staleness_outcome (E : env) (path : string) (ttl : Z)
    (w : world) :
  (check_cache_staleness E path ttl w).1
  = match w_files w !! path with
    | None => if bool_decide (path ∈ w_dirs w) then Raised IOError
              else Returned JNull
    | Some f =>
        match json_load E (f_text f) with
        | None => Raised JSONDecodeError
        | Some j =>
            obind (getitem j "timestamp") (fun ts =>
              let now := time_time E (w_ticks w) in
              if localtime_ok E now then
                obind (as_number (if truthy ts then ts
                                  else JNum (f_mtime f))) (fun t =>
                  if localtime_ok E t then
                    Returned (if Qltb (now - t) (inject_Z ttl)
                              then j else JNull)
                  else Raised OverflowError)
              else Raised OverflowError)
        end
    end.
Proof.
  destruct (w_files w !! path) as [f|] eqn:Hf.
  2: { unfold check_cache_staleness, read_file. unfold_ops. cbn.
       rewrite Hf. cbn. destruct (bool_decide (path ∈ w_dirs w)); cbn;
         rewrite ?Hf; reflexivity. }
  destruct (json_load E (f_text f)) as [j|] eqn:Hj.
  2: { unfold check_cache_staleness. unfold_ops. crunch. reflexivity. }
  destruct (getitem j "timestamp") as [ts|e|c] eqn:Hts; cbn [obind].
  2,3: unfold check_cache_staleness, cache_timestamp_of; unfold_ops;
       crunch; reflexivity.
  destruct (localtime_ok E (time_time E (w_ticks w))) eqn:Hnow.
  2: { unfold check_cache_staleness, cache_timestamp_of, debug_time.
       unfold_ops. destruct (truthy ts) eqn:Htr; crunch; reflexivity. }
  destruct (as_number (if truthy ts then ts else JNum (f_mtime f)))
    as [t|e|c] eqn:Hnum; cbn [obind].
  - destruct (localtime_ok E t) eqn:Hlt.
    + now apply check_cache_staleness_answer with (f := f) (ts := ts).
    + unfold check_cache_staleness, cache_timestamp_of, debug_time.
      unfold_ops. destruct (truthy ts) eqn:Htr.
      * crunch. reflexivity.
      * cbn in Hnum. injection Hnum as <-. crunch. reflexivity.
  - unfold check_cache_staleness, cache_timestamp_of, debug_time.
    unfold_ops. destruct (truthy ts) eqn:Htr; [|discriminate Hnum].
    crunch. reflexivity.
  - unfold check_cache_staleness, cache_timestamp_of, debug_time.
    unfold_ops. destruct (truthy ts) eqn:Htr; [|discriminate Hnum].
    crunch. reflexivity.
Qed.

(** X5. Whatever the check returns is [None] or the record parsed from
    the file at the path; that record is an object with a [timestamp]
    field, so it is truthy and the orchestrator's test of it never
    discards a returned record. *)
Theorem check_cache_staleness_returns_record (E : env) (path : string)
    (ttl : Z) (w : world) (j : json) :
  (check_cache_staleness E path ttl w).1 = Returned j ->
  j = JNull \/
  exists f m, w_files w !! path = Some f /\
              json_load E (f_text f) = Some j /\
              j = JObj m /\ is_Some (m !! "timestamp") /\
              truthy j = true.
Proof.
  rewrite check_cache_staleness_outcome.
  destruct (w_files w !! path) as [f|] eqn:Hf; [|destruct (bool_decide _);
    [discriminate|intros [= <-]; now left]].
  destruct (json_load E (f_text f)) as [j0|] eqn:Hj; [|discriminate].
  destruct j0 as [| | | | |m]; try discriminate. cbn [getitem].
  destruct (m !! "timestamp") as [ts|] eqn:Hts; [|discriminate]. cbn [obind].
  destruct (localtime_ok E _); [|discriminate].
  destruct (as_number _) as [t| |]; try discriminate. cbn [obind].
  destruct (localtime_ok E t); [|discriminate].
  destruct (Qltb _ _); intros [= <-]; [right|now left].
  exists f, m. rewrite Hts. repeat split; eauto.
  cbn [truthy]. destruct (size m =? 0)%nat eqn:Hsz; [|reflexivity].
  apply Nat.eqb_eq, map_size_empty_iff in Hsz. subst m.
  rewrite lookup_empty in Hts. discriminate.
Qed.

Lemma check_cache_staleness_returns_record_witness :
  exists f m, sample_files "cache" !! "cache.json" = Some f /\
              json_load sample_env (f_text f) = Some sample_record /\
              sample_record = JObj m /\ is_Some (m !! "timestamp") /\
              truthy sample_record = true.
Proof.
  destruct (check_cache_staleness_returns_record sample_env "cache.json"
              3600 (sample_world "cache") sample_record eq_refl)
    as [H|H]; [discriminate H|exact H].
Defined.

(** ** Saving *)

Lemma save_ip_list_to_cache_steps (E : env) (path : string)
    (ip_list : gmap string string) (w : world) :
  (save_ip_list_to_cache E path ip_list w).1 = Returned tt /\
  evolves (fun p => p = path) (writes_only path) w
    (save_ip_list_to_cache E path ip_list w).2.
Proof.
  split.
  - unfold save_ip_list_to_cache. unfold_ops. cbn.
    destruct (open_w_ok E path); reflexivity.
  - revert w. change (steps (evolves (fun p => p = path) (writes_only path))
                        (save_ip_list_to_cache E path ip_list)).
    unfold save_ip_list_to_cache.
    steps_tac (fun p => p = path) (writes_only path).
Qed.


(** X7. When the file cannot be opened for writing, the error is logged
    and swallowed: the call returns and no file changes. *)
Theorem save_ip_list_to_cache_refused (E : env) (path : string)
    (ip_list : gmap string string) (w : world) :
  open_w_ok E path = false ->
  let r := save_ip_list_to_cache E path ip_list w in
  r.1 = Returned tt /\
  w_files r.2 = w_files w /\
  w_trace r.2
  = (w_trace w
     ++ [EvOpen path "w";
         Log ERROR "Failed to write to cache file: {e}" [JStr "IOError"]])%list.
Proof.
  intros Hw. unfold save_ip_list_to_cache. unfold_ops. cbn. rewrite Hw. cbn.
  rewrite <- app_assoc. auto.
Qed.

Lemma save_ip_list_to_cache_refused_witness :
  w_files (save_ip_list_to_cache sample_env_readonly "cache.json"
             sample_ips (sample_world "cache")).2
  = sample_files "cache".
Proof.
  exact (proj1 (proj2 (save_ip_list_to_cache_refused sample_env_readonly
                         "cache.json" sample_ips (sample_world "cache")
                         eq_refl))).
Defined.

(** X8. A cache that was just saved is stale as soon as the time elapsed
    reaches the time-to-live (the comparison is strict): the check
    returns [None]. *)
Theorem save_then_check_stale (E : env) (path : string)
    (ip_list : gmap string string) (ttl : Z) (w : world) :
  let now_save := time_time E (w_ticks w) in
  let now_load := time_time E (S (w_ticks w)) in
  let record := cache_record now_save ip_list in
  open_w_ok E path = true ->
  json_load E (json_dump E record) = Some record ->
  ~ (now_save == 0)%Q ->
  localtime_ok E now_save = true ->
  localtime_ok E now_load = true ->
  (inject_Z ttl <= now_load - now_save)%Q ->
  (check_cache_staleness E path ttl
     (save_ip_list_to_cache E path ip_list w).2).1 = Returned JNull.
Proof.
  intros now_save now_load record Hw Hcodec Hnz Hls Hll Hage.
  destruct (save_ip_list_to_cache_world E path ip_list w Hw) as [Hfiles Hticks].
  erewrite (check_cache_staleness_answer E path ttl _ _ record
              (JNum now_save) now_save).
  - rewrite Hticks. apply Qltb_ge in Hage. fold now_load. now rewrite Hage.
  - rewrite Hfiles. apply lookup_insert_eq.
  - exact Hcodec.
  - reflexivity.
  - cbn [truthy]. destruct (Qeq_bool now_save 0) eqn:Hz; [|reflexivity].
    apply Qeq_bool_iff in Hz. contradiction.
  - now rewrite Hticks.
  - exact Hls.
Qed.

Lemma save_then_check_stale_witness :
  (check_cache_staleness sample_env "cache.json" 100
     (save_ip_list_to_cache sample_env "cache.json" sample_ips
        empty_world).2).1 = Returned JNull.
Proof.
  apply (save_then_check_stale sample_env "cache.json" sample_ips 100
           empty_world); try reflexivity.
  - intros H. discriminate H.
  - intros H. discriminate H.
Defined.

(** ** The configuration *)







(** ** More on the resolver *)

(** X12. A service that cannot be reached, or answers with a status from
    400 to 599, is skipped with a warning, whatever its body: the
    mapping is unchanged and the loop goes on. *)
Theorem query_service_http_error (E : env)
    (acc : gmap string string) (url : string) (w : world) :
  match requests_get E url with
  | Some r => ~ status_ok r
  | None => True
  end ->
  query_service E acc url w
  = (Returned acc,
     log_to w
       [Log INFO "Attempting to retrieve public IP from {service_url}"
          [JStr url];
        EvGet url;
        Log WARNING "Could not retrieve IP from {service_url}" [JStr url]]).
Proof.
  intros H. unfold query_service, get, raise_for_status. unfold_ops. cbn.
  destruct (requests_get E url) as [r|]; cbn.
  - destruct ((400 <=? status_code r) && (status_code r <? 600))%Z eqn:Hs.
    + cbn. unfold log_to. now rewrite <- !app_assoc.
    + apply raise_for_status_ok in Hs. contradiction.
  - unfold log_to. now rewrite <- !app_assoc.
Qed.

Lemma query_service_http_error_witness :
  (query_service sample_env_not_found ∅ "https://ipinfo.io/ip"
     empty_world).1 = Returned ∅.
Proof.
  rewrite (query_service_http_error sample_env_not_found ∅
             "https://ipinfo.io/ip" empty_world); [reflexivity|].
  cbn. intros [H|H]; [discriminate H|]. apply H. reflexivity.
Defined.

Lemma strip_space ws : all_space ws -> Py.strip ws = "".
Proof.
  intros H. unfold Py.strip.
  replace (Py.lstrip ws) with (Py.lstrip (ws ++ "")).
  - now rewrite lstrip_app_space.
  - f_equal. induction ws as [|c r IH]; [reflexivity|].
    rewrite append_cons, IH; [reflexivity|].
    unfold all_space in *. cbn in H. now apply andb_prop in H as [_ H].
Qed.

(** X13. An answer whose body is empty or all white space is skipped
    without a word: nothing is stored, nothing is logged after the
    request. *)
Theorem query_service_blank_body (E : env)
    (acc : gmap string string) (url : string) (w : world) (r : response) :
  requests_get E url = Some r ->
  status_ok r ->
  all_space (text r) ->
  query_service E acc url w
  = (Returned acc,
     log_to w
       [Log INFO "Attempting to retrieve public IP from {service_url}"
          [JStr url];
        EvGet url]).
Proof.
  intros Hr Hok Hws. apply raise_for_status_ok in Hok.
  unfold query_service, get, raise_for_status. unfold_ops. cbn.
  rewrite Hr. cbn. rewrite Hok. cbn. rewrite (strip_space _ Hws). cbn.
  unfold log_to. now rewrite <- !app_assoc.
Qed.

Lemma query_service_blank_body_witness :
  (query_service sample_env_blank ∅ "https://ipinfo.io/ip" empty_world).1
  = Returned ∅.
Proof.
  rewrite (query_service_blank_body sample_env_blank ∅
             "https://ipinfo.io/ip" empty_world
             {| status_code := 200; text := String NEWLINE " " |});
    [reflexivity|reflexivity| |reflexivity].
  left. reflexivity.
Defined.

(** One turn of the loop, whatever the validator does. *)
Lemma query_service_outcome E acc url w m :
  (query_service E acc url w).1 = Returned m ->
  (exists ip, answer E url ip /\ m = <[url := ip]> acc) \/ m = acc.
Proof.
  unfold query_service, get, raise_for_status, answer. unfold_ops. cbn.
  destruct (requests_get E url) as [r|] eqn:Hr; cbn;
    [|intros [= <-]; now right].
  destruct ((400 <=? status_code r) && (status_code r <? 600))%Z eqn:Hs; cbn;
    [intros [= <-]; now right|].
  apply raise_for_status_ok in Hs.
  destruct (String.eqb_spec (Py.strip (text r)) "") as [He|He]; cbn;
    [intros [= <-]; now right|].
  destruct (validate_ip (Py.strip (text r))) as [[|]|e|c] eqn:Hv; cbn.
  - intros [= <-]. left. exists (Py.strip (text r)).
    split; [|reflexivity]. exists r. auto.
  - intros [= <-]. now right.
  - destruct (is_RequestException e); cbn; [intros [= <-]; now right|].
    discriminate.
  - discriminate.
Qed.

Lemma query_services_outcome E urls acc w m :
  (query_services E acc urls w).1 = Returned m ->
  forall k v, m !! k = Some v ->
              (In k urls /\ answer E k v) \/ acc !! k = Some v.
Proof.
  revert acc w. induction urls as [|u rest IH]; intros acc w Hrun k v Hkv.
  - cbn in Hrun. injection Hrun as <-. now right.
  - cbn [query_services] in Hrun. unfold bind in Hrun.
    destruct (query_service E acc u w) as [[m1|e|c] w1] eqn:Hq;
      try discriminate Hrun.
    assert (Hq1 : (query_service E acc u w).1 = Returned m1)
      by now rewrite Hq.
    destruct (IH m1 w1 Hrun k v Hkv) as [[Hin Ha]|Hm1].
    + left. split; [now right|exact Ha].
    + destruct (query_service_outcome E acc u w m1 Hq1)
        as [(ip & Hans & ->)| ->]; [|now right].
      destruct (String.string_dec u k) as [->|Hne].
      * rewrite lookup_insert_eq in Hm1. injection Hm1 as <-.
        left. split; [now left|exact Hans].
      * rewrite lookup_insert_ne in Hm1 by exact Hne. now right.
Qed.

(** X14. Whenever the resolver returns a mapping, each of its entries is
    keyed by one of the service URLs and holds that service's stripped,
    non-empty answer, on which [validate_ip] is true; there are no more
    entries than services. *)
Theorem get_public_ip_entries_valid (E : env) (w : world)
    (m : gmap string string) :
  (get_public_ip E w).1 = Returned m ->
  (forall k v, m !! k = Some v ->
               In k PUBLIC_IP_SERVICE_URL_LIST /\ answer E k v /\
               validate_ip v = Returned true) /\
  (size m <= length PUBLIC_IP_SERVICE_URL_LIST)%nat.
Proof.
  intros Hrun. unfold get_public_ip in Hrun.
  assert (Hent : forall k v, m !! k = Some v ->
                   In k PUBLIC_IP_SERVICE_URL_LIST /\ answer E k v).
  { intros k v Hkv.
    destruct (query_services_outcome E _ _ _ _ Hrun k v Hkv) as [H|H];
      [exact H|]. rewrite lookup_empty in H. discriminate. }
  split.
  - intros k v Hkv. destruct (Hent k v Hkv) as [Hin Ha].
    split; [exact Hin|]. split; [exact Ha|].
    now destruct Ha as (r & _ & _ & _ & _ & Hv).
  - assert (Hsub : dom m ⊆ list_to_set PUBLIC_IP_SERVICE_URL_LIST).
    { intros k Hk. apply elem_of_dom in Hk as [v Hkv].
      apply elem_of_list_to_set, list_elem_of_In. now apply (Hent k v). }
    rewrite <- size_dom. etransitivity; [exact (subseteq_size _ _ Hsub)|].
    reflexivity.
Qed.

Lemma get_public_ip_entries_valid_witness :
  (size sample_ips <= length PUBLIC_IP_SERVICE_URL_LIST)%nat.
Proof.
  exact (proj2 (get_public_ip_entries_valid sample_env empty_world
                  sample_ips eq_refl)).
Defined.

Lemma gets_app t1 t2 : gets (t1 ++ t2) = (gets t1 ++ gets t2)%list.
Proof.
  induction t1 as [|ev t1 IH]; [reflexivity|].
  destruct ev; cbn; now rewrite ?IH.
Qed.

Lemma query_service_gets_once E acc url :
  gets (w_trace (query_service E acc url empty_world).2) = [url].
Proof.
  unfold query_service, get, raise_for_status. unfold_ops. cbn.
  destruct (requests_get E url) as [r|]; cbn; [|reflexivity].
  destruct ((400 <=? status_code r) && (status_code r <? 600))%Z; cbn;
    [reflexivity|].
  destruct (negb _); cbn; [|reflexivity].
  destruct (validate_ip _) as [[|]|[]|]; reflexivity.
Qed.

Lemma query_services_gets_in_order E urls acc w m :
  (query_services E acc urls w).1 = Returned m ->
  gets (w_trace (query_services E acc urls w).2)
  = (gets (w_trace w) ++ urls)%list.
Proof.
  revert acc w. induction urls as [|u rest IH]; intros acc w Hrun.
  - cbn. now rewrite app_nil_r.
  - cbn [query_services] in *. unfold bind in *.
    rewrite (trace_only_query_service E acc u w) in *.
    destruct (query_service E acc u empty_world).1 as [m1| |] eqn:H1;
      try discriminate Hrun.
    rewrite (IH _ _ Hrun). cbn [log_to w_trace].
    rewrite gets_app, query_service_gets_once, <- app_assoc. reflexivity.
Qed.

(** X15. A resolver that returns has sent exactly one request to each
    service, in the order of the list: no retry, none left out. *)
Theorem get_public_ip_one_request_each (E : env) (w : world)
    (m : gmap string string) :
  (get_public_ip E w).1 = Returned m ->
  gets (w_trace (get_public_ip E w).2)
  = (gets (w_trace w) ++ PUBLIC_IP_SERVICE_URL_LIST)%list.
Proof. apply query_services_gets_in_order. Qed.

Lemma get_public_ip_one_request_each_witness :
  gets (w_trace (get_public_ip sample_env empty_world).2)
  = PUBLIC_IP_SERVICE_URL_LIST.
Proof.
  exact (get_public_ip_one_request_each sample_env empty_world sample_ips
           eq_refl).
Defined.

Lemma steps_query_services E urls acc :
  steps (evolves no_file resolving) (query_services E acc urls).
Proof.
  revert acc. induction urls as [|u rest IH]; intros acc; cbn [query_services].
  - apply (steps_ret _ (evolves_refl _ _)).
  - apply (steps_bind _ (evolves_trans _ _)); [|intros ?; apply IH].
    unfold query_service, get, raise_for_status.
    steps_tac no_file resolving.
Qed.

(** X16. When no service gives an answer and the cache is not used, the
    run ends the process with status -1: after the cache check it has
    only logged and sent requests, so no file is written and no
    destination is contacted. *)
Theorem main_no_answer_exits (E : env) (a : args) (w w1 : world)
    (cfg cached : json) :
  load_config_and_cache E a w = (Returned (cfg, cached), w1) ->
  truthy cached && negb (ignore_cache a) = false ->
  (forall u r, In u PUBLIC_IP_SERVICE_URL_LIST -> requests_get E u = Some r ->
               exists b, validate_ip (Py.strip (text r)) = Returned b) ->
  (forall u ip, In u PUBLIC_IP_SERVICE_URL_LIST -> ~ answer E u ip) ->
  (main E a w).1 = Exited (-1) /\
  evolves no_file resolving w1 (main E a w).2 /\
  w_files (main E a w).2 = w_files w1.
Proof.
  intros Hload Hcond Hval Hnone.
  destruct (get_public_ip_returns E w1 Hval) as (m & Hm & Hspec).
  assert (Hempty : m = ∅).
  { apply map_empty. intros k. destruct (m !! k) as [v|] eqn:Hk; [|reflexivity].
    apply Hspec in Hk as [Hin Ha]. destruct (Hnone k v Hin Ha). }
  subst m.
  pose proof (steps_query_services E PUBLIC_IP_SERVICE_URL_LIST ∅ w1) as Hst.
  fold (get_public_ip E) in Hst.
  assert (Hmain : exists t, main E a w
                            = (Exited (-1),
                               log_to (get_public_ip E w1).2 t) /\
                            Forall resolving t).
  { unfold main, bind at 1. rewrite Hload. cbn [fst snd].
    unfold cached_or_fresh. rewrite Hcond.
    unfold bind at 1. unfold resolve_and_save, bind at 1.
    destruct (get_public_ip E w1) as [o w2]. cbn in Hm. subst o.
    unfold log, emit, os_exit, lift, bind. cbn. rewrite map_size_empty. cbn.
    unfold log_to. cbn. rewrite <- !app_assoc. eexists. split; [reflexivity|].
    cbn. repeat constructor. }
  destruct Hmain as (t & -> & Ht). cbn [fst snd].
  assert (Hev : evolves no_file resolving w1
                  (log_to (get_public_ip E w1).2 t)).
  { eapply evolves_trans; [exact Hst|].
    unfold evolves, log_to. cbn. split; [reflexivity|].
    split; [reflexivity|]. split; [lia|]. eauto. }
  split; [reflexivity|]. split; [exact Hev|].
  apply (evolves_files _ _ _ _ Hev). intros p [].
Qed.

Lemma main_no_answer_exits_witness :
  (main sample_env_not_found (sample_args true) (sample_world "cache")).1
  = Exited (-1).
Proof.
  refine (proj1 (main_no_answer_exits sample_env_not_found (sample_args true)
                   (sample_world "cache")
                   (load_config_and_cache sample_env_not_found
                      (sample_args true) (sample_world "cache")).2
                   sample_config sample_record _ eq_refl _ _)).
  - vm_compute. reflexivity.
  - intros u r _ H. injection H as <-. exists true. reflexivity.
  - intros u ip _ (r & H & [Hs|Hs] & _); injection H as <-;
      [discriminate Hs|]. apply Hs. reflexivity.
Defined.

(** ** More on the dispatcher *)

Lemma run_destination_op_cases (E : env) (op : json) (cache_file : string) :
  dest_ok op \/
  exists e, (run_destination_op E op cache_file empty_world).1 = Raised e.
Proof.
  unfold run_destination_op. unfold bind at 1, lift at 1.
  destruct op as [| | | | |m]; try (right; eexists; reflexivity).
  cbn [getitem]. destruct (m !! "type") as [ty|] eqn:Hty;
    [|right; eexists; reflexivity].
  destruct ty as [| | |s| |]; try (right; eexists; reflexivity).
  cbn [eq_str]. destruct (String.eqb_spec s "scp") as [->|Hne].
  - destruct (m !! "name") as [name|] eqn:Hn.
    + left. exists m, "scp". eauto.
    + right. unfold run_destination_op_scp. cbn. rewrite Hn.
      eexists. reflexivity.
  - left. exists m, s. split; [reflexivity|]. split; [exact Hty|].
    intros ->. contradiction.
Qed.

(** X17. Dispatching one destination returns exactly when it is an
    object whose [type] is a string and which has a [name] if the type
    is ["scp"]; it raises exactly on the other destinations. *)
Theorem run_destination_op_returns_iff (E : env) (op : json)
    (cache_file : string) (w : world) :
  ((run_destination_op E op cache_file w).1 = Returned tt <-> dest_ok op) /\
  ((exists e, (run_destination_op E op cache_file w).1 = Raised e)
   <-> ~ dest_ok op).
Proof.
  rewrite (trace_only_run_destination_op E op cache_file w). cbn [fst].
  pose proof (run_destination_op_cases E op cache_file) as Hcases.
  pose proof (fun H => proj1 (run_destination_op_alone E op cache_file H))
    as Hok.
  split; split.
  - intros Hret. destruct Hcases as [H|[e He]]; [exact H|congruence].
  - exact Hok.
  - intros [e He] Hd. rewrite (Hok Hd) in He. discriminate.
  - intros Hn. destruct Hcases as [H|H]; [contradiction|exact H].
Qed.

Lemma for_each_aborts {A} (body : A -> M unit) (pre post : list A) (x : A)
    (e : exn) (w : world) :
  (forall y, trace_only (body y)) ->
  Forall (fun y => (body y empty_world).1 = Returned tt) pre ->
  (body x empty_world).1 = Raised e ->
  for_each body (pre ++ x :: post) w
  = (Raised e,
     log_to w (concat ((fun y => w_trace (body y empty_world).2) <$> pre)
               ++ w_trace (body x empty_world).2)).
Proof.
  intros Hb Hpre Hx. revert w. induction Hpre as [|y l Hy Hl IH]; intros w.
  - cbn [app for_each fmap list_fmap concat]. unfold bind.
    now rewrite (Hb x w), Hx.
  - cbn [app for_each fmap list_fmap concat]. unfold bind.
    rewrite (Hb y w), Hy, IH, log_to_log_to, app_assoc. reflexivity.
Qed.

(** X18. A destination that is not well formed stops the dispatch: the
    destinations before it are dispatched in order, it raises, and the
    destinations after it are never attempted. *)
Theorem dispatch_aborts_on_malformed (E : env) (a : args)
    (cfg : gmap string json) (pre post : list json) (d : json) (w : world) :
  cfg !! "destination_list" = Some (JArr (pre ++ d :: post)) ->
  Forall dest_ok pre ->
  ~ dest_ok d ->
  let r := dispatch E (JObj cfg) a w in
  (exists e, r.1 = Raised e) /\
  w_trace r.2
  = (w_trace w
     ++ Log INFO "Got %d destinations"
          [JNum (inject_Z (Z.of_nat (length (pre ++ d :: post))))]
        :: concat (dest_trace E (cache_file a) <$> pre)
     ++ dest_trace E (cache_file a) d)%list.
Proof.
  intros Hcfg Hpre Hd r. subst r.
  destruct (run_destination_op_cases E d (cache_file a)) as [H|[e He]];
    [contradiction|].
  assert (Hret : Forall (fun y => (run_destination_op E y (cache_file a)
                                     empty_world).1 = Returned tt) pre).
  { eapply Forall_impl; [exact Hpre|].
    intros y Hy. now apply run_destination_op_alone. }
  unfold dispatch, getitem. rewrite Hcfg. cbn [obind len iter].
  unfold lift, log, emit, bind. cbn.
  rewrite (for_each_aborts _ pre post d e _
             (fun y => trace_only_run_destination_op E y (cache_file a))
             Hret He).
  cbn. split; [eauto|]. now rewrite <- app_assoc.
Qed.

Lemma dispatch_aborts_on_malformed_witness :
  exists e,
    (dispatch sample_env
       (JObj {[ "destination_list" :=
                  JArr (sample_dests ++ JObj ∅ :: sample_dests) ]})
       (sample_args false) empty_world).1 = Raised e.
Proof.
  refine (proj1 (dispatch_aborts_on_malformed sample_env (sample_args false)
                   {[ "destination_list" :=
                        JArr (sample_dests ++ JObj ∅ :: sample_dests) ]}
                   sample_dests sample_dests (JObj ∅) empty_world
                   eq_refl sample_dests_ok _)).
  intros (m & ty & Hm & Hty & _). injection Hm as <-. discriminate Hty.
Defined.

(** X19. An ["scp"] destination that lacks one of [host], [port],
    [username] and [identity_file] is reported and given up without any
    connection attempt; the client is closed and the call returns. *)
Theorem run_destination_op_scp_missing_field (E : env)
    (m : gmap string json) (cache_file : string) (name : json) (w : world) :
  m !! "name" = Some name ->
  m !! "host" = None \/ m !! "port" = None \/ m !! "username" = None \/
  m !! "identity_file" = None ->
  exists key,
    run_destination_op_scp E (JObj m) cache_file w
    = (Returned tt,
       log_to w [Log INFO "Executing operation %s" [name];
                 Log ERROR "Failed to upload to remote" [];
                 Log ERROR "{e}" [JStr ("KeyError: " ++ key)];
                 EvClose]).
Proof.
  intros Hname Hmiss.
  unfold run_destination_op_scp, connect, put, getitem. unfold_ops. cbn.
  rewrite Hname. cbn. unfold log_to.
  destruct (m !! "host") as [h|]; cbn;
    [|exists "host"; now rewrite <- !app_assoc].
  destruct (m !! "port") as [p|]; cbn;
    [|exists "port"; now rewrite <- !app_assoc].
  destruct (m !! "username") as [u|]; cbn;
    [|exists "username"; now rewrite <- !app_assoc].
  destruct (m !! "identity_file") as [k|]; cbn;
    [|exists "identity_file"; now rewrite <- !app_assoc].
  exfalso. destruct Hmiss as [H|[H|[H|H]]]; discriminate H.
Qed.

Lemma run_destination_op_scp_missing_field_witness :
  exists key,
    run_destination_op_scp sample_env
      (JObj {[ "type" := JStr "scp"; "name" := JStr "bare" ]})
      "cache.json" empty_world
    = (Returned tt,
       log_to empty_world
         [Log INFO "Executing operation %s" [JStr "bare"];
          Log ERROR "Failed to upload to remote" [];
          Log ERROR "{e}" [JStr ("KeyError: " ++ key)];
          EvClose]).
Proof.
  apply (run_destination_op_scp_missing_field sample_env
           {[ "type" := JStr "scp"; "name" := JStr "bare" ]}
           "cache.json" (JStr "bare") empty_world).
  - reflexivity.
  - left. reflexivity.
Defined.

Lemma basename_join dir file :
  no_slash file -> Py.basename (dir ++ "/" ++ file) = file.
Proof.
  intros Hf. induction dir as [|c dir IH].
  - cbn [Py.basename]. rewrite append_nil.
    change ("/" ++ file) with (String "/" file). cbn [Py.basename].
    unfold no_slash in Hf. now rewrite Hf.
  - rewrite append_cons. cbn [Py.basename].
    rewrite forallb_str_app.
    change ("/" ++ file) with (String "/" file). cbn [Py.forallb_str].
    rewrite andb_false_r. exact IH.
Qed.

(** X20. With every field present and a transport that works, the cache
    file is copied to [remote_dir], a slash and the base name of the
    cache path; the upload is logged and the client closed. *)
Theorem run_destination_op_scp_uploads (E : env) (m : gmap string json)
    (cache_file : string) (name host port username identity_file : json)
    (remote_dir : string) (w : world) :
  scp_destination m name host port username identity_file remote_dir ->
  ssh_connect E host port username identity_file = None ->
  scp_put E cache_file (remote_dir ++ "/" ++ Py.basename cache_file) = None ->
  run_destination_op_scp E (JObj m) cache_file w
  = (Returned tt,
     log_to w
       [Log INFO "Executing operation %s" [name];
        EvConnect host port username identity_file;
        EvPut cache_file (remote_dir ++ "/" ++ Py.basename cache_file);
        Log INFO "Uploaded %s to remote %s:%s"
          [JStr cache_file; host;
           JStr (remote_dir ++ "/" ++ Py.basename cache_file)];
        EvClose]).
Proof.
  intros (Hn & Hh & Hp & Hu & Hk & Hr) Hc Hput.
  unfold run_destination_op_scp, connect, put, getitem, str_add.
  unfold_ops. crunch. unfold log_to. now rewrite <- !app_assoc.
Qed.

Lemma run_destination_op_scp_uploads_witness :
  In (EvPut DEFAULT_CACHE_FILE "/srv/public_ip_cache.json")
     (w_trace (run_destination_op_scp sample_env (JObj sample_scp)
                 DEFAULT_CACHE_FILE empty_world).2).
Proof.
  rewrite (run_destination_op_scp_uploads sample_env sample_scp
             DEFAULT_CACHE_FILE (JStr "backup") (JStr "backup.example")
             (JNum 22) (JStr "ip") (JStr "id_rsa") "/srv" empty_world).
  - right. right. left. reflexivity.
  - repeat split; reflexivity.
  - reflexivity.
  - reflexivity.
Defined.

(** X21. When the connection fails, nothing is copied: the failure is
    logged with the exception, the client is closed and the call
    returns. *)
Theorem run_destination_op_scp_connect_fails (E : env)
    (m : gmap string json) (cache_file : string)
    (name host port username identity_file : json) (remote_dir : string)
    (e : exn) (w : world) :
  scp_destination m name host port username identity_file remote_dir ->
  ssh_connect E host port username identity_file = Some e ->
  run_destination_op_scp E (JObj m) cache_file w
  = (Returned tt,
     log_to w
       [Log INFO "Executing operation %s" [name];
        EvConnect host port username identity_file;
        Log ERROR "Failed to upload to remote" [];
        Log ERROR "{e}" [JStr (exn_name e)];
        EvClose]).
Proof.
  intros (Hn & Hh & Hp & Hu & Hk & Hr) Hc.
  unfold run_destination_op_scp, connect, put, getitem, str_add.
  unfold_ops. crunch. unfold log_to. now rewrite <- !app_assoc.
Qed.

Lemma run_destination_op_scp_connect_fails_witness :
  (run_destination_op_scp sample_env_superscript (JObj sample_scp_down)
     "cache.json" empty_world).1 = Returned tt.
Proof.
  rewrite (run_destination_op_scp_connect_fails sample_env_superscript
             sample_scp_down "cache.json" (JStr "down") (JStr "down.example")
             (JNum 22) (JStr "ip") (JStr "id_rsa") "/srv" SSHException
             empty_world).
  - reflexivity.
  - repeat split; reflexivity.
  - reflexivity.
Defined.

(** X22. When the copy fails after a successful connection, the failure
    is logged with the exception, the client is closed and the call
    returns. *)
Theorem run_destination_op_scp_put_fails (E : env)
    (m : gmap string json) (cache_file : string)
    (name host port username identity_file : json) (remote_dir : string)
    (e : exn) (w : world) :
  scp_destination m name host port username identity_file remote_dir ->
  ssh_connect E host port username identity_file = None ->
  scp_put E cache_file (remote_dir ++ "/" ++ Py.basename cache_file)
  = Some e ->
  run_destination_op_scp E (JObj m) cache_file w
  = (Returned tt,
     log_to w
       [Log INFO "Executing operation %s" [name];
        EvConnect host port username identity_file;
        EvPut cache_file (remote_dir ++ "/" ++ Py.basename cache_file);
        Log ERROR "Failed to upload to remote" [];
        Log ERROR "{e}" [JStr (exn_name e)];
        EvClose]).
Proof.
  intros (Hn & Hh & Hp & Hu & Hk & Hr) Hc Hput.
  unfold run_destination_op_scp, connect, put, getitem, str_add.
  unfold_ops. crunch. unfold log_to. now rewrite <- !app_assoc.
Qed.

Lemma run_destination_op_scp_put_fails_witness :
  (run_destination_op_scp sample_env_put_fails (JObj sample_scp)
     "cache.json" empty_world).1 = Returned tt.
Proof.
  rewrite (run_destination_op_scp_put_fails sample_env_put_fails
             sample_scp "cache.json" (JStr "backup") (JStr "backup.example")
             (JNum 22) (JStr "ip") (JStr "id_rsa") "/srv" SSHException
             empty_world).
  - reflexivity.
  - repeat split; reflexivity.
  - reflexivity.
  - reflexivity.
Defined.

Lemma steps_run_destination_op E op cache_file :
  steps (evolves no_file transport_event)
    (run_destination_op E op cache_file).
Proof.
  unfold run_destination_op, run_destination_op_scp, connect, put.
  steps_tac no_file transport_event.
Qed.

Lemma steps_dispatch E cfg a :
  steps (evolves no_file transport_event) (dispatch E cfg a).
Proof.
  unfold dispatch. steps_tac no_file transport_event.
  apply (steps_for_each _ (evolves_refl _ _) (evolves_trans _ _)).
  intros d. apply steps_run_destination_op.
Qed.

(** X23. The dispatcher touches nothing local: whatever the
    configuration holds, it changes no file, reads no clock, sends no
    HTTP request and opens no file; it only logs and drives the secure-
    shell transport. *)
Theorem dispatch_transport_only (E : env) (cfg : json) (a : args)
    (w : world) :
  evolves no_file transport_event w (dispatch E cfg a w).2 /\
  w_files (dispatch E cfg a w).2 = w_files w /\
  w_ticks (dispatch E cfg a w).2 = w_ticks w.
Proof.
  split; [apply steps_dispatch|].
  rewrite (trace_only_dispatch E cfg a w). auto.
Qed.

(** ** More on the orchestrator *)

Lemma steps_weaken {A} (W W' : string -> Prop) (P P' : event -> Prop)
    (m : M A) :
  (forall p, W p -> W' p) -> (forall ev, P ev -> P' ev) ->
  steps (evolves W P) m -> steps (evolves W' P') m.
Proof. intros HW HP Hm w. exact (evolves_weaken _ _ _ _ _ _ HW HP (Hm w)). Qed.

Lemma quiet_offline ev : quiet ev -> offline ev.
Proof. destruct ev; cbn; tauto. Qed.

Lemma steps_load_config_and_cache E a :
  steps (evolves no_file offline) (load_config_and_cache E a).
Proof.
  assert (Hcheck : forall path ttl,
            steps (evolves no_file offline)
              (check_cache_staleness E path ttl)).
  { intros path ttl.
    apply (steps_weaken no_file no_file quiet offline); [auto|
      exact quiet_offline|apply steps_check_cache_staleness]. }
  unfold load_config_and_cache, read_config_file, setup_logging,
    setup_cache_dir.
  unfold log, raise, os_exit, load_json.
  repeat first [apply Hcheck | steps_step no_file offline].
Qed.




Lemma steps_dispatch_offline E cfg a :
  steps (evolves no_file offline) (dispatch E cfg a).
Proof.
  apply (steps_weaken no_file no_file transport_event offline);
    [auto|intros []; cbn; tauto|].
  apply steps_dispatch.
Qed.

(** X25. When the cache check returns a record and [--ignore-cache] is
    not given, the run is offline: it sends no HTTP request, opens no
    file for writing and, its log apart, changes no file, whatever the
    dispatch does. *)
Theorem main_cached_offline (E : env) (a : args) (w w1 : world)
    (cfg cached : json) :
  load_config_and_cache E a w = (Returned (cfg, cached), w1) ->
  truthy cached = true ->
  ignore_cache a = false ->
  evolves no_file offline w (main E a w).2 /\
  w_files (main E a w).2 = w_files w /\
  gets (w_trace (main E a w).2) = gets (w_trace w).
Proof.
  intros Hload Htr Hig.
  assert (Hev : evolves no_file offline w (main E a w).2).
  { pose proof (steps_load_config_and_cache E a w) as Hst.
    rewrite Hload in Hst. cbn in Hst.
    eapply evolves_trans; [exact Hst|].
    unfold main, bind at 1. rewrite Hload. cbn [fst snd].
    unfold cached_or_fresh. rewrite Htr, Hig. cbn [negb andb].
    revert w1 Hload Hst. intros w1 _ _. revert w1.
    change (steps (evolves no_file offline)
              ((log INFO "Using cached public IP addresses" [];;
                n <- lift (len cached);;
                log DEBUG "Got {len(public_ip_list)}" [JNum (inject_Z n)];;
                log DEBUG "{public_ip_list}" [cached]);;
               dispatch E cfg a;;
               log INFO "public_ip_poster finished" [])).
    unfold log.
    repeat first [apply steps_dispatch_offline | steps_step no_file offline]. }
  split; [exact Hev|]. split.
  - apply (evolves_files _ _ _ _ Hev). intros p [].
  - destruct Hev as (_ & _ & _ & t & -> & Ht). rewrite gets_app.
    assert (Hg : gets t = []).
    { clear -Ht. induction Ht as [|ev t Hev Ht IH]; [reflexivity|].
      destruct ev; cbn in *; auto. contradiction. }
    now rewrite Hg, app_nil_r.
Qed.

Lemma main_cached_offline_witness :
  gets (w_trace (main sample_env (sample_args false)
                   (sample_world "cache")).2) = [].
Proof.
  refine (proj2 (proj2 (main_cached_offline sample_env (sample_args false)
                          (sample_world "cache")
                          (load_config_and_cache sample_env
                             (sample_args false) (sample_world "cache")).2
                          sample_config sample_record _ eq_refl eq_refl))).
  vm_compute. reflexivity.
Defined.

(** X26. Whatever happens, a run changes no file other than the cache
    file (its log apart), and opens no other file for writing. *)
Theorem main_writes_only_cache (E : env) (a : args) (w : world) :
  evolves (fun p => p = cache_file a) (writes_only (cache_file a)) w
    (main E a w).2 /\
  (forall p, p <> cache_file a ->
             w_files (main E a w).2 !! p = w_files w !! p).
Proof.
  set (W := fun p => p = cache_file a). set (P := writes_only (cache_file a)).
  assert (Hload : steps (evolves W P) (load_config_and_cache E a)).
  { apply (steps_weaken no_file W offline P);
      [intros p []|intros []; cbn; try tauto; intros; contradiction|].
    apply steps_load_config_and_cache. }
  assert (Hdisp : forall cfg, steps (evolves W P) (dispatch E cfg a)).
  { intros cfg. apply (steps_weaken no_file W transport_event P);
      [intros p []|intros []; cbn; tauto|].
    apply steps_dispatch. }
  assert (Hget : steps (evolves W P) (get_public_ip E)).
  { apply (steps_weaken no_file W resolving P);
      [intros p []|intros []; cbn; tauto|].
    apply steps_query_services. }
  assert (Hsave : forall m, steps (evolves W P)
                              (save_ip_list_to_cache E (cache_file a) m)).
  { intros m w0. apply save_ip_list_to_cache_steps. }
  assert (Hmain : steps (evolves W P) (main E a)).
  { unfold main, cached_or_fresh, resolve_and_save.
    unfold log, raise, os_exit.
    repeat first [ apply Hload | apply Hdisp | apply Hget | apply Hsave
                 | steps_step W P ]. }
  split; [apply Hmain|].
  intros p Hp. destruct (Hmain w) as [HF _]. apply HF. exact Hp.
Qed.

(** The world a run ends in when the cache is not used. *)
Lemma main_resolve_world (E : env) (a : args) (w w1 w2 : world)
    (cfg cached : json) (m : gmap string string) :
  truthy cached && negb (ignore_cache a) = false ->
  load_config_and_cache E a w = (Returned (cfg, cached), w1) ->
  get_public_ip E w1 = (Returned m, w2) ->
  m <> ∅ ->
  open_w_ok E (cache_file a) = true ->
  exists w4 t t',
    (main E a w).2 = log_to w4 t' /\
    w_trace w4 = (w_trace w2 ++ t)%list /\
    w_files w4
    = <[cache_file a :=
          {| f_text := json_dump E
                         (cache_record (time_time E (w_ticks w2)) m);
             f_mtime := mtime_stamp E (S (w_ticks w2)) |}]> (w_files w2).
Proof.
  intros Hcond Hload Hget Hne Hopen.
  unfold main, bind at 1. rewrite Hload. cbn [fst snd].
  unfold cached_or_fresh. rewrite Hcond.
  unfold bind at 1. unfold resolve_and_save, bind at 1. rewrite Hget.
  unfold log at 1 2, emit, bind at 1 2. cbn.
  destruct (size m =? 0)%nat eqn:Hsz.
  { apply Nat.eqb_eq, map_size_empty_iff in Hsz. contradiction. }
  unfold log at 1, emit, bind at 1. cbn.
  set (w3 := {| w_files := w_files w2; w_dirs := w_dirs w2;
                w_ticks := w_ticks w2; w_trace := _ |}).
  destruct (save_ip_list_to_cache_world E (cache_file a) m w3 Hopen)
    as [Hfiles _].
  destruct (save_ip_list_to_cache_trace E (cache_file a) m w3) as [t Ht].
  pose proof (proj1 (save_ip_list_to_cache_steps E (cache_file a) m w3))
    as Hret.
  destruct (save_ip_list_to_cache E (cache_file a) m w3) as [o w4].
  cbn in Hfiles, Ht, Hret. subst o.
  unfold bind at 1. rewrite (trace_only_dispatch E cfg a w4).
  set (od := (dispatch E cfg a empty_world).1).
  set (td := w_trace (dispatch E cfg a empty_world).2).
  exists w4. subst w3. cbn [w_trace w_files w_ticks] in Ht, Hfiles.
  rewrite <- !app_assoc in Ht. eexists.
  destruct od; cbn.
  - exists (td ++ [Log INFO "public_ip_poster finished" []])%list.
    split; [|split; [exact Ht|exact Hfiles]].
    unfold log, emit, log_to. cbn. now rewrite app_assoc.
  - exists td. auto.
  - exists td. auto.
Qed.

(** X27. When the cache check returns [None] (no cache file, or a stale
    one) and the resolver returns a non-empty mapping, every service has
    been queried once and the cache file holds the new record, stamped
    with the time of saving. *)
Theorem main_stale_cache_refreshes (E : env) (a : args) (w w1 w2 : world)
    (cfg : json) (m : gmap string string) :
  load_config_and_cache E a w = (Returned (cfg, JNull), w1) ->
  get_public_ip E w1 = (Returned m, w2) ->
  m <> ∅ ->
  open_w_ok E (cache_file a) = true ->
  gets (w_trace w2) = (gets (w_trace w1) ++ PUBLIC_IP_SERVICE_URL_LIST)%list /\
  exists f, w_files (main E a w).2 !! cache_file a = Some f /\
            f_text f = json_dump E
                         (cache_record (time_time E (w_ticks w2)) m).
Proof.
  intros Hload Hget Hne Hopen.
  destruct (main_resolve_world E a w w1 w2 cfg JNull m
              eq_refl Hload Hget Hne Hopen) as (w4 & t & t' & -> & Ht & Hfiles).
  cbn [log_to w_files]. split.
  - pose proof (query_services_gets_in_order E PUBLIC_IP_SERVICE_URL_LIST
                  ∅ w1 m) as Hg.
    fold (get_public_ip E) in Hg. rewrite Hget in Hg. exact (Hg eq_refl).
  - rewrite Hfiles. eexists. split; [apply lookup_insert_eq|reflexivity].
Qed.

Lemma main_stale_cache_refreshes_witness :
  exists f,
    w_files (main sample_env (sample_args false) sample_world_no_cache).2
      !! "cache.json" = Some f /\
    f_text f = "cache".
Proof.
  refine (proj2 (main_stale_cache_refreshes sample_env (sample_args false)
                   sample_world_no_cache
                   (load_config_and_cache sample_env (sample_args false)
                      sample_world_no_cache).2
                   (get_public_ip sample_env
                      (load_config_and_cache sample_env (sample_args false)
                         sample_world_no_cache).2).2
                   sample_config sample_ips _ _ _ eq_refl)).
  - vm_compute. reflexivity.
  - vm_compute. reflexivity.
  - intros H. discriminate H.
Defined.
